(** * litmusctl, package [k8s]: cluster pre-flight checks and manifest apply

    A shallow embedding of [pkg/k8s/operations.go]: the methods of
    [KubeClientFunctions] that probe the cluster ([NsExists],
    [CheckSAPermissions], [podExists]), the interactive namespace
    resolver [ValidNs], the pod watcher [WatchPod] and the manifest
    applier [ApplyYaml].

    The Go code talks to a terminal, a cluster, an HTTP server, the file
    system and a child process.  The terminal, the files and the record
    of what was done live in a [World] that is threaded through every
    call; what the outside answers is an [Env] of oracles.  A call ends
    in an [Outcome]: it returns, the process exits ([os.Exit],
    [log.Fatal]), it blocks for ever on a channel, or the loop bound of
    the model is used up.

    The oracles are functions of the request alone: during one call the
    cluster gives the same answer to the same question. *)

From Stdlib Require Import String Ascii List ZArith Bool Lia.
From stdpp Require Import gmap strings.

Open Scope string_scope.
Open Scope Z_scope.

(** ** Strings as Go has them: byte sequences *)

(** The byte [\n]; Rocq string literals have no escapes. *)
Definition nl : string := String (ascii_of_nat 10) EmptyString.

(** [strings.Join]. *)
Fixpoint Join (elems : list string) (sep : string) : string :=
  match elems with
  | nil => ""
  | e :: nil => e
  | e :: rest => e ++ sep ++ Join rest sep
  end.

(** [fmt.Sprint] of operands that are all strings: no space is added
    between two operands when either is a string. *)
Definition Sprint (a : list string) : string := Join a "".

(** [fmt.Sprintln]: spaces between all operands and a final newline. *)
Definition Sprintln (a : list string) : string := Join a " " ++ nl.

(** ** [fmt.Sprintf] with a format and no operands

    [ApplyYaml] calls [fmt.Errorf(errStr)]: the captured text is the
    FORMAT and the operand list is empty.  This is [doPrintf] of Go's
    [fmt/print.go] for [len(a) = 0]; the position [i] of the Go code is
    the suffix of the format still to be read. *)
Module fmt.

Definition percentBangString := "%!".
Definition missingString := "(MISSING)".
Definition badIndexString := "(BADINDEX)".
Definition noVerbString := "%!(NOVERB)".
Definition badWidthString := "%!(BADWIDTH)".
Definition badPrecString := "%!(BADPREC)".

Definition byte (c : ascii) : Z := Z.of_N (N_of_ascii c).

Definition isDigit (c : ascii) : bool := (48 <=? byte c) && (byte c <=? 57).

(** [tooLarge]: the bound on a width, precision or argument index. *)
Definition tooLarge (x : Z) : bool := (1000000 <? x) || (x <? -1000000).

(** [parsenum(s, start, end)] on the suffix from [start]; the result's
    third component is the suffix from [newi].  On overflow Go returns
    [end], the empty suffix. *)
Fixpoint parsenum_from (s : string) (num : Z) (isnum : bool) : Z * bool * string :=
  match s with
  | String c s' =>
      if isDigit c then
        if tooLarge num then (0, false, "")
        else parsenum_from s' (num * 10 + (byte c - 48)) true
      else (num, isnum, s)
  | EmptyString => (num, isnum, s)
  end.

Definition parsenum (s : string) : Z * bool * string := parsenum_from s 0 false.

(** The text before the first [']'] and the text after it. *)
Fixpoint cutBracket (s : string) : option (string * string) :=
  match s with
  | EmptyString => None
  | String c s' =>
      if Ascii.eqb c "]"%char then Some ("", s')
      else match cutBracket s' with
           | Some (inner, rest) => Some (String c inner, rest)
           | None => None
           end
  end.

(** [parseArgNumber] on a suffix [s] that starts with ['[']: the suffix
    after the [wid] bytes it consumes, and [ok]. *)
Definition parseArgNumber (s : string) : string * bool :=
  match s with
  | EmptyString => (s, false)
  | String _ s' =>
      if (String.length s <? 3)%nat then (s', false)
      else match cutBracket s' with
           | None => (s', false)
           | Some (inner, rest) =>
               let '(_, isnum, r) := parsenum inner in
               (rest, isnum && String.eqb r "")
           end
  end.

(** [argNumber] with [numArgs = 0]: every index is out of range, so a
    bracket always clears [goodArgNum].  Returns the new suffix,
    [found] and the new [goodArgNum]. *)
Definition argNumber (s : string) (goodArgNum : bool) : string * bool * bool :=
  match s with
  | String c _ =>
      if Ascii.eqb c "["%char then
        let '(s', ok) := parseArgNumber s in (s', ok, false)
      else (s, false, goodArgNum)
  | EmptyString => (s, false, goodArgNum)
  end.

Definition isFlag (c : ascii) : bool :=
  Ascii.eqb c "#"%char || Ascii.eqb c "0"%char || Ascii.eqb c "+"%char
  || Ascii.eqb c "-"%char || Ascii.eqb c " "%char.

(** The [simpleFormat] loop: with no operand left the fast path is never
    taken, so the loop only skips the flag bytes. *)
Fixpoint skipFlags (s : string) : string :=
  match s with
  | String c s' => if isFlag c then skipFlags s' else s
  | EmptyString => s
  end.

Definition startsWith (c : ascii) (s : string) : bool :=
  match s with
  | String c' _ => Ascii.eqb c c'
  | EmptyString => false
  end.

Definition tail (s : string) : string :=
  match s with
  | String _ s' => s'
  | EmptyString => s
  end.

Definition between (lo hi : Z) (c : ascii) : bool := (lo <=? byte c) && (byte c <=? hi).

(** The encoding of U+FFFD, what [writeRune(utf8.RuneError)] appends. *)
Definition runeError : string :=
  String (ascii_of_nat 239) (String (ascii_of_nat 191) (String (ascii_of_nat 189) "")).

(** [utf8.DecodeRuneInString] followed by [writeRune]: the bytes written
    for the verb and the suffix after the [size] bytes consumed.  A
    well-formed rune is written back as the bytes it was read from; an
    ill-formed one consumes one byte and is written as U+FFFD. *)
Definition decodeVerb (s : string) : string * string :=
  match s with
  | EmptyString => (runeError, s)
  | String s0 r0 =>
      let b0 := byte s0 in
      if b0 <? 128 then (String s0 "", r0)
      else
        let sz : Z :=
          if between 194 223 s0 then 2
          else if between 224 239 s0 then 3
          else if between 240 244 s0 then 4
          else 0 in
        let lo : Z := if b0 =? 224 then 160 else if b0 =? 240 then 144 else 128 in
        let hi : Z := if b0 =? 237 then 159 else if b0 =? 244 then 143 else 191 in
        if sz =? 0 then (runeError, r0)
        else if (Z.of_nat (String.length s) <? sz) then (runeError, r0)
        else
          match r0 with
          | String s1 r1 =>
              if negb (between lo hi s1) then (runeError, r0)
              else if sz <=? 2 then (String s0 (String s1 ""), r1)
              else
                match r1 with
                | String s2 r2 =>
                    if negb (between 128 191 s2) then (runeError, r0)
                    else if sz <=? 3 then (String s0 (String s1 (String s2 "")), r2)
                    else
                      match r2 with
                      | String s3 r3 =>
                          if negb (between 128 191 s3) then (runeError, r0)
                          else (String s0 (String s1 (String s2 (String s3 ""))), r3)
                      | EmptyString => (runeError, r0)
                      end
                | EmptyString => (runeError, r0)
                end
          | EmptyString => (runeError, r0)
          end
  end.

(** One verb: [s] is the format after the ['%'].  Returns what is
    written and the suffix to go on with; [None] is the [break] after
    [noVerbString]. *)
Definition doVerb (s : string) : string * option string :=
  let s := skipFlags s in
  (* Do we have an explicit argument index? *)
  let '(s, afterIndex, good) := argNumber s true in
  (* Do we have width? *)
  let '(out, s, afterIndex, good) :=
    if startsWith "*" s then (badWidthString, tail s, false, good)
    else
      let '(_, widPresent, s') := parsenum s in
      ("", s', afterIndex, if afterIndex && widPresent then false else good) in
  (* Do we have precision? *)
  let '(out, s, afterIndex, good) :=
    if startsWith "." s then
      let good := if afterIndex then false else good in
      let '(s, afterIndex, good) := argNumber (tail s) good in
      if startsWith "*" s then (out ++ badPrecString, tail s, false, good)
      else
        let '(_, _, s') := parsenum s in (out, s', afterIndex, good)
    else (out, s, afterIndex, good) in
  let '(s, afterIndex, good) :=
    if negb afterIndex then argNumber s good else (s, afterIndex, good) in
  match s with
  | EmptyString => (out ++ noVerbString, None)
  | String c _ =>
      let '(verb, s') := decodeVerb s in
      if Ascii.eqb c "%"%char then (out ++ "%", Some s')
      else if negb good then (out ++ percentBangString ++ verb ++ badIndexString, Some s')
      else (out ++ percentBangString ++ verb ++ missingString, Some s')
  end.

(** [formatLoop]: copy up to the next ['%'], then process one verb.
    [fuel] bounds the number of verbs; every verb consumes its ['%'],
    so one more than the length of the format is always enough. *)
Fixpoint doPrintf (fuel : nat) (format : string) {struct fuel} : string :=
  match fuel with
  | O => ""
  | S fuel' =>
      (fix copy (format : string) : string :=
         match format with
         | EmptyString => ""
         | String c rest =>
             if Ascii.eqb c "%"%char then
               let '(out, next) := doVerb rest in
               out ++ match next with
                      | Some s' => doPrintf fuel' s'
                      | None => ""
                      end
             else String c (copy rest)
         end) format
  end.

(** [fmt.Sprintf(format)] with no operand. *)
Definition Sprintf (format : string) : string :=
  doPrintf (S (String.length format)) format.

End fmt.

(** ** Errors *)

(** [metav1.StatusReason], as far as the package tells reasons apart. *)
Inductive StatusReason :=
| StatusReasonUnknown
| StatusReasonUnauthorized
| StatusReasonForbidden
| StatusReasonNotFound
| StatusReasonTimeout
| StatusReasonInternalError
| StatusReasonServiceUnavailable.

(** A non-nil Go [error]: a plain message ([errors.New], [fmt.Errorf], and
    the errors of [net/http], [os] and [os/exec], of which only the
    message is ever read), or the API server's [*StatusError].  A Go
    [error] that may be [nil] is an [option error]. *)
Inductive error :=
| errorString (s : string)
| StatusError (reason : StatusReason) (code : Z) (message : string).

(** The method [Error()]. *)
Definition Error (err : error) : string :=
  match err with
  | errorString s => s
  | StatusError _ _ message => message
  end.

Module k8serror.

Definition reasonAndCodeForError (err : option error) : StatusReason * Z :=
  match err with
  | Some (StatusError reason code _) => (reason, code)
  | _ => (StatusReasonUnknown, 0)
  end.

(** [k8serror.IsNotFound]: the reason is NotFound, or the reason is not
    a known one and the code is 404. *)
Definition IsNotFound (err : option error) : bool :=
  match reasonAndCodeForError err with
  | (StatusReasonNotFound, _) => true
  | (StatusReasonUnknown, code) => code =? 404
  | _ => false
  end.

End k8serror.

(** ** What the cluster holds and answers *)

Record Namespace := { ns_Name : string }.

Record Pod := { pod_Name : string; Phase : string }.

Record PodList := { Items : list Pod }.

(** The dynamic type of a watch event's [Object]. *)
Inductive Object :=
| PodObject (p : Pod)
| StatusObject (message : string)
| OtherObject.

Record Event := { event_Type : string; event_Object : Object }.

(** What a receive on the watch's [ResultChan()] finds at the [i]-th turn
    of the [range] loop: an event, the channel closed, or nothing ever
    (the receive blocks for ever). *)
Inductive Recv :=
| RecvEvent (event : Event)
| RecvClosed
| RecvNever.

Record Watch := { ResultChan : nat -> Recv }.

Record ResourceAttributes := {
  ra_Namespace : string;
  ra_Verb : string;
  ra_Group : string;
  ra_Resource : string;
  ra_Subresource : string;
  ra_Name : string
}.

(** [SubjectAccessReviewStatus], the server's decision. *)
Record SubjectAccessReviewStatus := {
  Allowed : bool;
  Reason : string;
  EvaluationError : string
}.

(** The typed client, by the four requests these methods send.  A
    request that returns a pointer and an error, and whose result is only
    read when the error is nil, is a sum; the namespace get keeps both
    components because [NsExists] tests both. *)
Record Clientset := {
  Namespaces_Get : string -> option Namespace * option error;
  Pods_List : string -> string -> PodList + error;
  Pods_Watch : string -> string -> Watch + error;
  SelfSubjectAccessReviews_Create : ResourceAttributes -> SubjectAccessReviewStatus + error
}.

(** ** The rest of the outside *)

Record Request := { Method : string; URL : string }.

(** An HTTP response: its status code and what [ioutil.ReadAll] gets out
    of its body. *)
Record Response := {
  StatusCode : Z;
  Body : string + error
}.

(** What a finished child process leaves: the two captured streams and
    the result of [cmd.Run()]. *)
Record Cmd := {
  Stdout : string;
  Stderr : string;
  RunErr : option error
}.

(** How [ioutil.WriteFile] fails.  It opens the file with [O_TRUNC], writes
    the data and closes the file: either the file cannot be opened, and
    nothing has changed; or it is opened, which empties it, and the
    write or the close fails when [written] bytes of the data are in the
    file. *)
Inductive WriteFailure :=
| OpenFailed (err : error)
| WriteFailed (err : error) (written : nat).

(** The oracles.  [DefaultNs] is the constant [utils.DefaultNs] and
    [ClientSet] the client factory of this package; neither is defined
    in [operations.go], both are taken as given.  [WriteFile_err] says
    whether, and how, writing the given data to the given file fails
    with the files as they are. *)
Record Env := {
  DefaultNs : string;
  ClientSet : option string -> Clientset + error;
  NewRequest_err : string -> string -> option error;
  Do : Request -> Response + error;
  WriteFile_err : string -> string -> gmap string string -> option WriteFailure;
  Run : list string -> gmap string string -> Cmd
}.

(** ** The world a call runs in *)

(** [utils.White_B] and [utils.Red]. *)
Inductive Color := White_B | Red.

(** What a call does to the terminal, the log, the HTTP server, the
    files and child processes, in order.  The requests to the cluster
    API are answered by the oracles and are not recorded. *)
Inductive Action :=
| Printed (c : Color) (text : string)
| Logged (text : string)
| Requested (req : Request)
| Wrote (name data : string) (perm : Z)
| Executed (argv : list string)
| WatchStopped.

(** [stdin]: what the successive [fmt.Scanln(&s)] calls store in [s], the
    empty string for an empty line; after the last one the input is at
    its end and [Scanln] stores nothing. *)
Record World := {
  stdin : list string;
  files : gmap string string;
  trace : list Action
}.

Inductive Outcome (A : Type) :=
| Returns (a : A) (w : World)
| Exits (code : Z) (w : World)
| Blocks (w : World)
| OutOfFuel.

Arguments Returns {A} a w.
Arguments Exits {A} code w.
Arguments Blocks {A} w.
Arguments OutOfFuel {A}.

Definition M (A : Type) : Type := World -> Outcome A.

Definition ret {A} (a : A) : M A := fun w => Returns a w.

Definition bind {A B} (m : M A) (k : A -> M B) : M B :=
  fun w =>
    match m w with
    | Returns a w' => k a w'
    | Exits code w' => Exits code w'
    | Blocks w' => Blocks w'
    | OutOfFuel => OutOfFuel
    end.

Declare Scope go_scope.
Delimit Scope go_scope with go.
Bind Scope go_scope with M.

Notation "x <- m ;; k" := (bind m (fun x => k))
  (at level 100, m at next level, right associativity) : go_scope.
Notation "m ;; k" := (bind m (fun _ => k))
  (at level 100, right associativity) : go_scope.

Open Scope go_scope.

Definition act (a : Action) : M unit :=
  fun w => Returns tt {| stdin := stdin w; files := files w; trace := (trace w ++ [a])%list |}.

Definition Print (c : Color) (a : list string) : M unit := act (Printed c (Sprint a)).

Definition Println (c : Color) (a : list string) : M unit := act (Printed c (Sprintln a)).

(** [Printf] with the text already formatted: the formats of this file
    are constants whose only verb is [%s], and [%s] prints a string
    operand as it is. *)
Definition Printf (c : Color) (text : string) : M unit := act (Printed c text).

Definition os_Exit {A} (code : Z) : M A := fun w => Exits code w.

(** [log.Fatal]: log the message, then [os.Exit(1)]. *)
Definition log_Fatal {A} (text : string) : M A := act (Logged text) ;; os_Exit 1.

(** [fmt.Scanln(&s)] on a fresh [s]; the error it returns is dropped by
    every caller, so at the end of the input [s] stays empty. *)
Definition Scanln : M string :=
  fun w =>
    match stdin w with
    | nil => Returns "" w
    | s :: rest => Returns s {| stdin := rest; files := files w; trace := trace w |}
    end.

(** ** The methods of [KubeClientFunctions] *)

Record CheckSAPermissionsParams := {
  csp_Verb : string;
  csp_Resource : string;
  csp_Print : bool;
  csp_Namespace : string
}.

Record podExistsParams := { pep_Namespace : string; pep_Label : string }.

Record WatchPodParams := { wpp_Namespace : string; wpp_Label : string }.

Record ApplyYamlPrams := { Token : string; Endpoint : string; YamlPath : string }.

(** What one pass through the body of [ValidNs] ends in: [goto start], or
    the [return namespace, nsExists]. *)
Inductive Pass :=
| GotoStart
| Return (namespace : string) (nsExists : bool).

Section Operations.

Variable E : Env.

(** [NsExists] checks if the given namespace already exists. *)
Definition NsExists (namespace : string) (kubeconfig : option string) : bool * option error :=
  match ClientSet E kubeconfig with
  | inr err => (false, Some err)
  | inl clientset =>
      let '(ns, err) := Namespaces_Get clientset namespace in
      if k8serror.IsNotFound err then (false, None)
      else
        match err, ns with
        | None, Some _ => (true, None)
        | _, _ => (false, err)
        end
  end.

(** The fields of [CanIOptions] that are never assigned keep their zero
    value, the empty string. *)
Definition CheckSAPermissions (params : CheckSAPermissionsParams) (kubeconfig : option string)
  : M (bool * option error) :=
  match ClientSet E kubeconfig with
  | inr err => ret (false, Some err)
  | inl client =>
      let sar := {| ra_Namespace := csp_Namespace params;
                    ra_Verb := csp_Verb params;
                    ra_Group := "";
                    ra_Resource := csp_Resource params;
                    ra_Subresource := "";
                    ra_Name := "" |} in
      match SelfSubjectAccessReviews_Create client sar with
      | inr err => ret (false, Some err)
      | inl response =>
          (if Allowed response then
             if csp_Print params
             then Print White_B [nl ++ "🔑 "; csp_Resource params; " ✅"]
             else ret tt
           else
             (if csp_Print params
              then Print White_B [nl ++ "🔑 "; csp_Resource params; " ❌"]
              else ret tt) ;;
             (if (0 <? String.length (Reason response))%nat
              then Println White_B [Reason response]
              else ret tt) ;;
             (if (0 <? String.length (EvaluationError response))%nat
              then Println Red [EvaluationError response]
              else ret tt)) ;;
          ret (Allowed response, None)
      end
  end.

(** [podExists] checks if a pod with the given label already exists in
    the given namespace. *)
Definition podExists (params : podExistsParams) (kubeconfig : option string) : M bool :=
  match ClientSet E kubeconfig with
  | inr err => log_Fatal (Error err)
  | inl clientset =>
      match Pods_List clientset (pep_Namespace params) (pep_Label params) with
      | inr err => log_Fatal (Error err)
      | inl watch =>
          if (1 <=? List.length (Items watch))%nat then ret true
          else ret false
      end
  end.

(** The body of [ValidNs], from the label [start] to the [goto] or the
    [return]. *)
Definition ValidNs_pass (mode label : string) (kubeconfig : option string) : M Pass :=
  namespace <-
    (if String.eqb mode "namespace" then
       Print White_B [nl ++ "Enter the namespace (existing namespace) [Default: ";
                      DefaultNs E; "]: "] ;;
       Scanln
     else if String.eqb mode "cluster" then
       Print White_B [nl ++ "Enter the namespace (new or existing namespace) [Default: ";
                      DefaultNs E; "]: "] ;;
       Scanln
     else
       Printf Red (nl ++ " 🚫 No mode selected " ++ nl) ;;
       os_Exit 1) ;;
  let namespace := if String.eqb namespace "" then DefaultNs E else namespace in
  let '(ok, err) := NsExists namespace kubeconfig in
  match err with
  | Some err =>
      Printf Red (nl ++ " 🚫 Namespace existence check failed: {" ++ Error err ++ "}" ++ nl) ;;
      os_Exit 1
  | None =>
      if ok then
        exists_ <- podExists {| pep_Namespace := namespace; pep_Label := label |} kubeconfig ;;
        if exists_ then
          Println Red [nl ++ "🚫 There is a Chaos Delegate already present in this namespace. Please enter a different namespace"] ;;
          ret GotoStart
        else
          Println White_B ["👍 Continuing with"; namespace; "namespace"] ;;
          ret (Return namespace true)
      else
        r <- CheckSAPermissions {| csp_Verb := "create"; csp_Resource := "namespace";
                                   csp_Print := false; csp_Namespace := namespace |}
                                kubeconfig ;;
        if negb (fst r) then
          Println Red ["🚫 You don't have permissions to create a namespace." ++ nl
                       ++ " Please enter an existing namespace."] ;;
          ret GotoStart
        else ret (Return namespace false)
  end.

(** [ValidNs] takes a valid namespace as input from the user.  [fuel]
    bounds the number of passes, that is of prompts. *)
Fixpoint ValidNs (fuel : nat) (mode label : string) (kubeconfig : option string)
  : M (string * bool) :=
  match fuel with
  | O => fun _ => OutOfFuel
  | S fuel' =>
      pass <- ValidNs_pass mode label kubeconfig ;;
      match pass with
      | GotoStart => ValidNs fuel' mode label kubeconfig
      | Return namespace nsExists => ret (namespace, nsExists)
      end
  end.

(** The [for event := range watch.ResultChan()] loop of [WatchPod], at
    its [i]-th receive.  [fuel] bounds the number of receives. *)
Fixpoint WatchPod_range (fuel : nat) (watch : Watch) (i : nat) : M unit :=
  match fuel with
  | O => fun _ => OutOfFuel
  | S fuel' =>
      match ResultChan watch i with
      | RecvClosed => ret tt
      | RecvNever => fun w => Blocks w
      | RecvEvent event =>
          match event_Object event with
          | PodObject p =>
              Println White_B ["💡 Connecting Chaos Delegate to ChaosCenter."] ;;
              if String.eqb (Phase p) "Running" then
                Println White_B ["🏃 Chaos Delegate is running!!"] ;;
                act WatchStopped
              else WatchPod_range fuel' watch (S i)
          | _ => log_Fatal "unexpected type"
          end
      end
  end.

(** [WatchPod] watches for the pod status. *)
Definition WatchPod (fuel : nat) (params : WatchPodParams) (kubeconfig : option string) : M unit :=
  match ClientSet E kubeconfig with
  | inr err => log_Fatal (Error err)
  | inl clientset =>
      match Pods_Watch clientset (wpp_Namespace params) (wpp_Label params) with
      | inr err => log_Fatal (Error err)
      | inl watch => WatchPod_range fuel watch 0
      end
  end.

(** [http.NewRequest]: the request, unless the method or the URL is
    refused. *)
Definition http_NewRequest (method url : string) : Request + error :=
  match NewRequest_err E method url with
  | Some err => inr err
  | None => inl {| Method := method; URL := url |}
  end.

(** [http.DefaultClient.Do]. *)
Definition http_Do (req : Request) : M (Response + error) :=
  act (Requested req) ;; ret (Do E req).

(** [ioutil.WriteFile]: the file holds exactly [data] afterwards; or the
    file could not be opened and nothing changes; or the write broke
    off, and the file, emptied when it was opened, holds the bytes of
    [data] written until then (all of them when only the close
    failed).  Nothing is cleaned up after a failure. *)
Definition ioutil_WriteFile (name data : string) (perm : Z) : M (option error) :=
  fun w =>
    match WriteFile_err E name data (files w) with
    | Some (OpenFailed err) => Returns (Some err) w
    | Some (WriteFailed err written) =>
        let part := String.substring 0 written data in
        Returns (Some err) {| stdin := stdin w;
                              files := <[name := part]> (files w);
                              trace := (trace w ++ [Wrote name part perm])%list |}
    | None =>
        Returns None {| stdin := stdin w;
                        files := <[name := data]> (files w);
                        trace := (trace w ++ [Wrote name data perm])%list |}
    end.

(** [exec.Command(args[0], args[1:]...)] and [cmd.Run()] with both
    streams captured. *)
Definition exec_Run (args : list string) : M Cmd :=
  fun w =>
    Returns (Run E args (files w))
            {| stdin := stdin w; files := files w;
               trace := (trace w ++ [Executed args])%list |}.

(** [ApplyYaml] from the line [args := ...] on: build the command, run
    it and classify the result. *)
Definition ApplyYaml_apply (path kubeconfig : string) : M (string * option error) :=
  let args := ["kubectl"; "apply"; "-f"; path] in
  let args :=
    if negb (String.eqb kubeconfig "")
    then (args ++ ["--kubeconfig"; kubeconfig])%list
    else ["kubectl"; "apply"; "-f"; path] in
  cmd <- exec_Run args ;;
  let err := RunErr cmd in
  let outStr := Stdout cmd in
  let errStr := Stderr cmd in
  match err with
  | Some err =>
      if negb (String.eqb errStr "")
      then ret ("", Some (errorString (fmt.Sprintf errStr)))
      else ret ("", Some err)
  | None => ret (outStr, None)
  end.

Definition ApplyYaml (params : ApplyYamlPrams) (kubeconfig : string) (isLocal : bool)
  : M (string * option error) :=
  let path := YamlPath params in
  if negb isLocal then
    let path := Endpoint params ++ "/" ++ YamlPath params ++ "/" ++ Token params ++ ".yaml" in
    match http_NewRequest "GET" path with
    | inr err => ret ("", Some err)
    | inl req =>
        resp <- http_Do req ;;
        match resp with
        | inr err => ret ("", Some err)
        | inl resp =>
            match Body resp with
            | inr err => ret ("", Some err)
            | inl resp_body =>
                err <- ioutil_WriteFile "chaos-delegate-manifest.yaml" resp_body 420 ;;
                match err with
                | Some err => ret ("", Some err)
                | None => ApplyYaml_apply "chaos-delegate-manifest.yaml" kubeconfig
                end
            end
        end
    end
  else ApplyYaml_apply path kubeconfig.

End Operations.

(** ** Vocabulary of the statements *)

(** The name a pass of [ValidNs] works with when run in [w]: what
    [Scanln] stores, or [DefaultNs] when that is empty. *)
Definition entered (E : Env) (w : World) : string :=
  match stdin w with
  | nil => DefaultNs E
  | s :: _ => if String.eqb s "" then DefaultNs E else s
  end.

(** The permission query [ValidNs] sends for a namespace. *)
Definition createNamespace (namespace : string) : CheckSAPermissionsParams :=
  {| csp_Verb := "create"; csp_Resource := "namespace";
     csp_Print := false; csp_Namespace := namespace |}.

(** [w] with the actions [l] done after those already in its trace. *)
Definition did (l : list Action) (w : World) : World :=
  {| stdin := stdin w; files := files w; trace := (trace w ++ l)%list |}.

Definition isPrinted (a : Action) : Prop := exists c text, a = Printed c text.

(** What a probe that got its answer prints. *)
Definition diagnostics (params : CheckSAPermissionsParams) (response : SubjectAccessReviewStatus)
  : list Action :=
  if Allowed response then
    if csp_Print params
    then [Printed White_B (Sprint [nl ++ "🔑 "; csp_Resource params; " ✅"])]
    else []
  else
    (if csp_Print params
     then [Printed White_B (Sprint [nl ++ "🔑 "; csp_Resource params; " ❌"])]
     else [])
    ++ (if String.eqb (Reason response) "" then []
        else [Printed White_B (Sprintln [Reason response])])
    ++ (if String.eqb (EvaluationError response) "" then []
        else [Printed Red (Sprintln [EvaluationError response])]).

(** The prompt of a pass and the world once it is printed and the answer
    is read. *)
Definition promptText (E : Env) (mode : string) : string :=
  Sprint [nl ++ (if String.eqb mode "namespace"
                 then "Enter the namespace (existing namespace) [Default: "
                 else "Enter the namespace (new or existing namespace) [Default: ");
          DefaultNs E; "]: "].

Definition prompted (E : Env) (mode : string) (w : World) : World :=
  {| stdin := List.tl (stdin w); files := files w;
     trace := (trace w ++ [Printed White_B (promptText E mode)])%list |}.

Definition occupied : Action :=
  Printed Red (Sprintln [nl ++ "🚫 There is a Chaos Delegate already present in this namespace. Please enter a different namespace"]).

Definition denied : Action :=
  Printed Red (Sprintln ["🚫 You don't have permissions to create a namespace." ++ nl
                         ++ " Please enter an existing namespace."]).

(** The three kinds of event [WatchPod] tells apart. *)
Definition waitingPod (r : Recv) : Prop :=
  exists ty p, r = RecvEvent {| event_Type := ty; event_Object := PodObject p |}
               /\ Phase p <> "Running".

Definition runningPod (r : Recv) : Prop :=
  exists ty p, r = RecvEvent {| event_Type := ty; event_Object := PodObject p |}
               /\ Phase p = "Running".

Definition notAPod (r : Recv) : Prop :=
  exists event, r = RecvEvent event
                /\ forall p, event_Object event <> PodObject p.

Definition connecting : Action :=
  Printed White_B (Sprintln ["💡 Connecting Chaos Delegate to ChaosCenter."]).

Definition running : Action :=
  Printed White_B (Sprintln ["🏃 Chaos Delegate is running!!"]).

(** The fixed cache file of a remote [ApplyYaml] and the command line of
    its apply step. *)
Definition cacheFile : string := "chaos-delegate-manifest.yaml".

Definition manifestURL (params : ApplyYamlPrams) : string :=
  Endpoint params ++ "/" ++ YamlPath params ++ "/" ++ Token params ++ ".yaml".

Definition applyArgs (path kubeconfig : string) : list string :=
  if String.eqb kubeconfig "" then ["kubectl"; "apply"; "-f"; path]
  else ["kubectl"; "apply"; "-f"; path; "--kubeconfig"; kubeconfig].

Definition manifestRequest (params : ApplyYamlPrams) : Request :=
  {| Method := "GET"; URL := manifestURL params |}.

(** The world once the manifest is fetched and cached: the request was
    sent and the cache file holds exactly the body [B]. *)
Definition fetched (params : ApplyYamlPrams) (B : string) (w : World) : World :=
  {| stdin := stdin w;
     files := <[cacheFile := B]> (files w);
     trace := (trace w ++ [Requested (manifestRequest params); Wrote cacheFile B 420])%list |}.

(** The parameters of a local apply of the file [path]. *)
Definition localFile (path : string) : ApplyYamlPrams :=
  {| Token := ""; Endpoint := ""; YamlPath := path |}.

(** No byte of [s] is a percent sign. *)
Fixpoint percentFree (s : string) : bool :=
  match s with
  | EmptyString => true
  | String c s' => negb (Ascii.eqb c "%"%char) && percentFree s'
  end.

(** ** A small cluster to run the model on *)

Module Demo.

Definition notFound (kind name : string) : error :=
  StatusError StatusReasonNotFound 404 (kind ++ " " ++ name ++ " not found").

Definition delegate (phase : string) : Pod :=
  {| pod_Name := "subscriber-7d9c"; Phase := phase |}.

Definition podEvent (ty phase : string) : Recv :=
  RecvEvent {| event_Type := ty; event_Object := PodObject (delegate phase) |}.

(** The namespace "default" exists and is free; "litmus" exists and
    already runs a delegate when [installed], and does not exist
    otherwise; the get of "staging" times out; nothing else exists.
    The watch in "default" sees the delegate come up, the one in
    "litmus" is closed by the server after one event, any other
    delivers a status object. *)
Definition cluster (installed canCreate : bool) : Clientset :=
  {| Namespaces_Get := fun name =>
       if String.eqb name "default" || (installed && String.eqb name "litmus")
       then (Some {| ns_Name := name |}, None)
       else if String.eqb name "staging"
       then (Some {| ns_Name := "" |},
             Some (StatusError StatusReasonTimeout 504 "request timed out"))
       else (Some {| ns_Name := "" |}, Some (notFound "namespaces" name));
     Pods_List := fun namespace label =>
       if installed && String.eqb namespace "litmus" && String.eqb label "app=chaos-delegate"
       then inl {| Items := [delegate "Failed"] |}
       else inl {| Items := [] |};
     Pods_Watch := fun namespace label =>
       inl {| ResultChan := fun i =>
                if String.eqb namespace "default" then
                  match i with
                  | O => podEvent "ADDED" "Pending"
                  | S O => podEvent "MODIFIED" "Pending"
                  | S (S O) => podEvent "MODIFIED" "Running"
                  | _ => RecvNever
                  end
                else if String.eqb namespace "litmus" then
                  match i with
                  | O => podEvent "MODIFIED" "Failed"
                  | _ => RecvClosed
                  end
                else
                  match i with
                  | O => podEvent "ADDED" "Pending"
                  | S O => RecvEvent {| event_Type := "ERROR";
                                        event_Object := StatusObject "too old resource version" |}
                  | _ => RecvClosed
                  end |};
     SelfSubjectAccessReviews_Create := fun attrs =>
       if String.eqb (ra_Namespace attrs) "staging"
       then inr (errorString "context deadline exceeded")
       else inl {| Allowed := canCreate;
                   Reason := if canCreate then "" else "RBAC: not bound";
                   EvaluationError := if canCreate then "" else "no rule resolved" |} |}.

(** ChaosCenter serves the manifest of token "tok123" and answers 404
    with an error page for any other URL. *)
Definition chaosCenter (req : Request) : Response + error :=
  if String.eqb (URL req) "https://cc.example/manifests/tok123.yaml"
  then inl {| StatusCode := 200; Body := inl "kind: Deployment" |}
  else if String.eqb (URL req) "https://down.example/manifests/tok123.yaml"
  then inr (errorString "dial tcp: connection refused")
  else inl {| StatusCode := 404; Body := inl "404 page not found" |}.

Definition env (installed canCreate : bool)
           (kubectl : list string -> gmap string string -> Cmd) : Env :=
  {| DefaultNs := "litmus";
     ClientSet := fun kubeconfig =>
       match kubeconfig with
       | Some "/no/such/config" => inr (errorString "stat /no/such/config: no such file or directory")
       | _ => inl (cluster installed canCreate)
       end;
     NewRequest_err := fun method url =>
       if fmt.startsWith ":" url then Some (errorString "parse: missing protocol scheme")
       else None;
     Do := chaosCenter;
     WriteFile_err := fun name data fs => None;
     Run := kubectl |}.

(** A [kubectl] that applies anything it is given a file for. *)
Definition kubectl (args : list string) (fs : gmap string string) : Cmd :=
  match args with
  | _ :: _ :: _ :: path :: _ =>
      match fs !! path with
      | Some _ => {| Stdout := "deployment.apps/subscriber created" ++ nl;
                     Stderr := ""; RunErr := None |}
      | None => {| Stdout := "";
                   Stderr := "error: the path " ++ path ++ " does not exist" ++ nl;
                   RunErr := Some (errorString "exit status 1") |}
      end
  | _ => {| Stdout := ""; Stderr := ""; RunErr := Some (errorString "exit status 1") |}
  end.

(** A [kubectl] that fails and quotes a percent sign on its standard
    error. *)
Definition kubectlPercent (args : list string) (fs : gmap string string) : Cmd :=
  {| Stdout := "";
     Stderr := "error: quantity 100% is not valid";
     RunErr := Some (errorString "exit status 1") |}.

Definition world (input : list string) : World :=
  {| stdin := input; files := ∅; trace := [] |}.

(** The same, on a machine where the cache file cannot be written: it
    cannot be opened at all when [written] is [None], and otherwise the
    disk is full after so many bytes. *)
Definition badDisk (written : option nat) : Env :=
  {| DefaultNs := DefaultNs (env true true kubectl);
     ClientSet := ClientSet (env true true kubectl);
     NewRequest_err := NewRequest_err (env true true kubectl);
     Do := chaosCenter;
     WriteFile_err := fun name data fs =>
       match written with
       | None => Some (OpenFailed (errorString ("open " ++ name ++ ": permission denied")))
       | Some n => Some (WriteFailed (errorString ("write " ++ name
                                                   ++ ": no space left on device")) n)
       end;
     Run := kubectl |}.

End Demo.

(** ** The remaining methods: service accounts and config maps *)

(** The double quote byte. *)
Definition quote : string := String (ascii_of_nat 34) EmptyString.

Record SAExistsParams := { sep_Namespace : string; sep_Serviceaccount : string }.

Record ConfigMap := { cm_Name : string; Data : gmap string string }.

(** The two requests of [clientset.CoreV1()] that the methods above do
    not send.  The service account that a get returns is dropped by its
    only caller, so the get is its error; a nil [Data] reads as the empty
    map. *)
Record CoreV1Interface := {
  ServiceAccounts_Get : string -> string -> option error;
  ConfigMaps_Get : string -> string -> ConfigMap + error
}.

(** How a call that touches [flag.CommandLine] ends: it finishes and
    leaves the flags defined so far with their values, it panics, or
    [flag.Parse] ends the process. *)
Inductive Proc (A : Type) :=
| Finished (a : A) (formal : gmap string string)
| Panics (msg : string)
| Quits (code : Z).

Arguments Finished {A} a formal.
Arguments Panics {A} msg.
Arguments Quits {A} code.

Section Accounts.

Variable E : Env.

(** [clientset.CoreV1()], for the two requests above. *)
Variable CoreV1 : Clientset -> CoreV1Interface.

(** The constant [utils.DefaultSA]. *)
Variable DefaultSA : string.

(** [homedir.HomeDir()], [filepath.Join] and the name of the program,
    [os.Args[0]]. *)
Variable HomeDir : string.
Variable filepath_Join : list string -> string.
Variable program : string.

(** [flag.Parse()] on the command line of the process, given the flags
    defined: the exit code when it ends the process, or the flags the
    command line sets, with their values. *)
Variable flag_Parse : gmap string string -> gmap string string + Z.

(** [SAExists] checks if the given service account exists in the given
    namespace. *)
Definition SAExists (params : SAExistsParams) (kubeconfig : option string) : M bool :=
  match ClientSet E kubeconfig with
  | inr err => log_Fatal (Error err)
  | inl clientset =>
      let msg := "serviceaccounts " ++ quote ++ sep_Serviceaccount params ++ quote
                 ++ " not found" in
      match ServiceAccounts_Get (CoreV1 clientset)
              (sep_Namespace params) (sep_Serviceaccount params) with
      | Some newErr =>
          if String.eqb (Error newErr) msg then ret false
          else log_Fatal (Error newErr)
      | None => ret true
      end
  end.

(** [ValidSA] gets a valid service account as input. *)
Definition ValidSA (namespace : string) (kubeconfig : option string) : M (string * bool) :=
  Print White_B [nl ++ "Enter service account [Default: "; DefaultSA; "]: "] ;;
  sa <- Scanln ;;
  let sa := if String.eqb sa "" then DefaultSA else sa in
  exists_ <- SAExists {| sep_Namespace := namespace; sep_Serviceaccount := sa |} kubeconfig ;;
  if exists_ then
    Print White_B [nl ++ "👍 Using the existing service account"] ;;
    ret (sa, true)
  else ret (sa, false).

(** [flag.String(name, value, usage)] on [flag.CommandLine]: defining a
    name twice panics. *)
Definition flag_String (name value : string) (formal : gmap string string)
  : Proc (gmap string string) :=
  match formal !! name with
  | Some _ =>
      Panics (if String.eqb program "" then "flag redefined: " ++ name
              else program ++ " flag redefined: " ++ name)
  | None => Finished (<[name := value]> formal) (<[name := value]> formal)
  end.

(** [GetConfigMap] returns the config map for a given name and
    namespace.  [formal] is [flag.CommandLine] when the call starts. *)
Definition GetConfigMap (name namespace : string) (formal : gmap string string)
  : Proc (gmap string string * option error) :=
  let value :=
    if negb (String.eqb HomeDir "") then filepath_Join [HomeDir; ".kube"; "config"]
    else "" in
  match flag_String "configmap" value formal with
  | Panics msg => Panics msg
  | Quits code => Quits code
  | Finished _ formal =>
      match flag_Parse formal with
      | inr code => Quits code
      | inl actual =>
          let formal := actual ∪ formal in
          let kubeconfig := default value (formal !! "configmap") in
          match ClientSet E (Some kubeconfig) with
          | inr err => Finished (∅, Some err) formal
          | inl clientset =>
              match ConfigMaps_Get (CoreV1 clientset) namespace name with
              | inr err => Finished (∅, Some err) formal
              | inl x => Finished (Data x, None) formal
              end
          end
      end
  end.

End Accounts.

(** ** Package [utils]: the compatibility matrix *)

(** [CompatibilityMatrix] stores the compatible versions of litmusctl and
    ChaosCenter. *)
Definition CompatibilityMatrix : gmap string (list string) :=
  list_to_map
    [ ("0.6.0",  ["2.2.0"; "2.3.0"]);
      ("0.7.0",  ["2.4.0"; "2.5.0"; "2.6.0"; "2.7.0"; "2.8.0"]);
      ("0.8.0",  ["2.4.0"; "2.5.0"; "2.6.0"; "2.7.0"; "2.8.0"]);
      ("0.9.0",  ["2.4.0"; "2.5.0"; "2.6.0"; "2.7.0"; "2.8.0"]);
      ("0.10.0", ["2.9.0"; "2.10.0"; "2.11.0"; "2.12.0"; "2.13.0"]);
      ("0.11.0", ["2.9.0"; "2.10.0"; "2.11.0"; "2.12.0"; "2.13.0"]);
      ("0.12.0", ["2.9.0"; "2.10.0"; "2.11.0"; "2.12.0"; "2.13.0"]);
      ("0.13.0", ["2.9.0"; "2.10.0"; "2.11.0"; "2.12.0"; "2.13.0"]) ].

(** ** More vocabulary *)

(** The name a pass works with when [s] is what was read. *)
Definition nameOf (E : Env) (s : string) : string :=
  if String.eqb s "" then DefaultNs E else s.

(** [ValidNs] turns the name down: it exists and holds a matching pod, or
    it does not exist and the probe says it may not be created. *)
Definition rejected (E : Env) (label : string) (kubeconfig : option string) (N : string) : Prop :=
  (NsExists E N kubeconfig = (true, None)
   /\ exists w w', podExists E {| pep_Namespace := N; pep_Label := label |} kubeconfig w
                   = Returns true w')
  \/ (NsExists E N kubeconfig = (false, None)
      /\ exists w w' e, CheckSAPermissions E (createNamespace N) kubeconfig w
                        = Returns (false, e) w').

(** [ValidNs] takes the name, with this flag: it exists and holds no
    matching pod, or it does not exist and may be created. *)
Definition accepted (E : Env) (label : string) (kubeconfig : option string)
           (N : string) (nsExists : bool) : Prop :=
  (NsExists E N kubeconfig = (true, None) /\ nsExists = true
   /\ exists w w', podExists E {| pep_Namespace := N; pep_Label := label |} kubeconfig w
                   = Returns false w')
  \/ (NsExists E N kubeconfig = (false, None) /\ nsExists = false
      /\ exists w w' e, CheckSAPermissions E (createNamespace N) kubeconfig w
                        = Returns (true, e) w').

(** An outcome without the record of what was printed on the way: the
    value and the input left, the exit code, or no end. *)
Inductive Verdict (A : Type) :=
| Gave (a : A) (rest : list string)
| Quit (code : Z)
| Stuck
| Unfinished.

Arguments Gave {A} a rest.
Arguments Quit {A} code.
Arguments Stuck {A}.
Arguments Unfinished {A}.

Definition verdict {A} (o : Outcome A) : Verdict A :=
  match o with
  | Returns a w => Gave a (stdin w)
  | Exits code _ => Quit code
  | Blocks _ => Stuck
  | OutOfFuel => Unfinished
  end.

(** The world with other input waiting. *)
Definition withInput (input : list string) (w : World) : World :=
  {| stdin := input; files := files w; trace := trace w |}.

(** ** Service accounts and config maps of the small cluster *)

Module DemoAccounts.

(** The service account "litmus" exists in every namespace; the get of
    "ghost" is answered with a not-found status whose message names the
    namespace instead; nothing else exists. *)
Definition coreV1 (clientset : Clientset) : CoreV1Interface :=
  {| ServiceAccounts_Get := fun namespace name =>
       if String.eqb name "litmus" then None
       else if String.eqb name "ghost"
       then Some (Demo.notFound "namespaces" (quote ++ namespace ++ quote))
       else Some (Demo.notFound "serviceaccounts" (quote ++ name ++ quote));
     ConfigMaps_Get := fun namespace name =>
       if String.eqb name "subscriber-config"
       then inl {| cm_Name := name; Data := {[ "VERSION" := "2.13.0" ]} |}
       else inr (Demo.notFound "configmaps" (quote ++ name ++ quote)) |}.

(** A command line without flags. *)
Definition noFlags (formal : gmap string string) : gmap string string + Z := inl ∅.

Definition join (elems : list string) : string := Join elems "/".

(** A cluster whose delegate never comes up: the watch delivers the
    pending pod again and again, or, when [silent], once and then nothing
    more. *)
Definition stalled (silent : bool) : Env :=
  {| DefaultNs := "litmus";
     ClientSet := fun kubeconfig =>
       inl {| Namespaces_Get := Namespaces_Get (Demo.cluster true true);
              Pods_List := Pods_List (Demo.cluster true true);
              Pods_Watch := fun namespace label =>
                inl {| ResultChan := fun i =>
                         match i with
                         | O => Demo.podEvent "ADDED" "Pending"
                         | S _ => if silent then RecvNever
                                  else Demo.podEvent "MODIFIED" "Pending"
                         end |};
              SelfSubjectAccessReviews_Create :=
                SelfSubjectAccessReviews_Create (Demo.cluster true true) |};
     NewRequest_err := NewRequest_err (Demo.env true true Demo.kubectl);
     Do := Demo.chaosCenter;
     WriteFile_err := fun name data fs => None;
     Run := Demo.kubectl |}.

End DemoAccounts.

(** * Properties *)

(** ** Running sequences of calls *)

Lemma bind_Returns {A B} (m : M A) (k : A -> M B) (w w' : World) (a : A) :
  m w = Returns a w' -> bind m k w = k a w'.
Proof. intros H. unfold bind. now rewrite H. Qed.

Lemma bind_Exits {A B} (m : M A) (k : A -> M B) (w w' : World) (code : Z) :
  m w = Exits code w' -> bind m k w = Exits code w'.
Proof. intros H. unfold bind. now rewrite H. Qed.

(** A sequence returns only if its first call returned. *)
Lemma bind_inv {A B} (m : M A) (k : A -> M B) (w w' : World) (b : B) :
  bind m k w = Returns b w' ->
  exists a w1, m w = Returns a w1 /\ k a w1 = Returns b w'.
Proof.
  unfold bind. destruct (m w) as [a w1|c w1|w1|] eqn:Hm; try discriminate.
  intros Hk. now exists a, w1.
Qed.

Lemma act_did (a : Action) (w : World) : act a w = Returns tt (did [a] w).
Proof. reflexivity. Qed.

Lemma did_did (l1 l2 : list Action) (w : World) : did l2 (did l1 w) = did (l1 ++ l2) w.
Proof. unfold did. simpl. now rewrite <- app_assoc. Qed.

Lemma did_nil (w : World) : did [] w = w.
Proof. destruct w. unfold did. simpl. now rewrite app_nil_r. Qed.

Lemma length_pos_nonempty (s : string) :
  (0 <? String.length s)%nat = negb (String.eqb s "").
Proof. now destruct s. Qed.

(** ** The existence check *)

Lemma IsNotFound_nil : k8serror.IsNotFound None = false.
Proof. reflexivity. Qed.

(** C6: [NsExists] answers [(false, nil)] when the get reports "not
    found", [(true, nil)] when the get succeeds, and [(false, err)] with
    the error itself when the get fails in any other way or the client
    cannot be built; a namespace that is absent never yields an error. *)
Theorem NsExists_cases (E : Env) (namespace : string) (kubeconfig : option string) :
  (forall err, ClientSet E kubeconfig = inr err ->
     NsExists E namespace kubeconfig = (false, Some err))
  /\ (forall clientset ns err,
        ClientSet E kubeconfig = inl clientset ->
        Namespaces_Get clientset namespace = (ns, err) ->
        (k8serror.IsNotFound err = true ->
           NsExists E namespace kubeconfig = (false, None))
        /\ (forall found, err = None -> ns = Some found ->
              NsExists E namespace kubeconfig = (true, None))
        /\ (forall e, err = Some e -> k8serror.IsNotFound err = false ->
              NsExists E namespace kubeconfig = (false, Some e))).
Proof.
  split.
  - intros err Hc. unfold NsExists. now rewrite Hc.
  - intros clientset ns err Hc Hget. unfold NsExists. rewrite Hc, Hget.
    repeat split.
    + intros Hnf. now rewrite Hnf.
    + intros found -> ->. now rewrite IsNotFound_nil.
    + intros e -> Hnf. rewrite Hnf. now destruct ns.
Qed.

Lemma NsExists_cases_witness :
  NsExists (Demo.env true true Demo.kubectl) "litmus" (Some "/no/such/config")
  = (false, Some (errorString "stat /no/such/config: no such file or directory"))
  /\ NsExists (Demo.env true true Demo.kubectl) "chaos" None = (false, None)
  /\ NsExists (Demo.env true true Demo.kubectl) "litmus" None = (true, None)
  /\ NsExists (Demo.env true true Demo.kubectl) "staging" None
     = (false, Some (StatusError StatusReasonTimeout 504 "request timed out")).
Proof.
  split; [| split; [| split]].
  - apply (proj1 (NsExists_cases (Demo.env true true Demo.kubectl) "litmus" (Some "/no/such/config"))).
    reflexivity.
  - eapply (proj2 (NsExists_cases (Demo.env true true Demo.kubectl) "chaos" None));
      reflexivity.
  - eapply (proj2 (NsExists_cases (Demo.env true true Demo.kubectl) "litmus" None));
      reflexivity.
  - eapply (proj2 (NsExists_cases (Demo.env true true Demo.kubectl) "staging" None));
      reflexivity.
Defined.

(** [NsExists] reports an error only when it reports [false]. *)
Lemma NsExists_true_nil (E : Env) (namespace : string) (kubeconfig : option string)
      (err : option error) :
  NsExists E namespace kubeconfig = (true, err) -> err = None.
Proof.
  unfold NsExists. destruct (ClientSet E kubeconfig) as [cs|e]; [|discriminate].
  destruct (Namespaces_Get cs namespace) as [ns er].
  destruct (k8serror.IsNotFound er); [discriminate|].
  destruct er; [discriminate|]. destruct ns; now intros [= <-].
Qed.

(** ** The permission probe *)

Lemma diagnostics_printed params response :
  Forall isPrinted (diagnostics params response).
Proof.
  unfold diagnostics.
  destruct (Allowed response), (csp_Print params),
    (String.eqb (Reason response) ""), (String.eqb (EvaluationError response) "");
    simpl; repeat constructor; unfold isPrinted; eauto.
Qed.

Lemma CheckSAPermissions_run (E : Env) params kubeconfig (w : World) :
  CheckSAPermissions E params kubeconfig w =
  match ClientSet E kubeconfig with
  | inr err => Returns (false, Some err) w
  | inl client =>
      match SelfSubjectAccessReviews_Create client
              {| ra_Namespace := csp_Namespace params; ra_Verb := csp_Verb params;
                 ra_Group := ""; ra_Resource := csp_Resource params;
                 ra_Subresource := ""; ra_Name := "" |} with
      | inr err => Returns (false, Some err) w
      | inl response => Returns (Allowed response, None) (did (diagnostics params response) w)
      end
  end.
Proof.
  unfold CheckSAPermissions, diagnostics.
  destruct (ClientSet E kubeconfig) as [client|err]; [|reflexivity].
  destruct (SelfSubjectAccessReviews_Create client _) as [response|err]; [|reflexivity].
  rewrite !length_pos_nonempty.
  destruct (Allowed response), (csp_Print params),
    (String.eqb (Reason response) ""), (String.eqb (EvaluationError response) "");
    unfold bind, Print, Println, act, ret, did; simpl;
    rewrite <- ?app_assoc, ?app_nil_r; simpl; try reflexivity;
    now destruct w.
Qed.

(** C7: [CheckSAPermissions] returns [(false, err)] when the client cannot
    be built or the access review request fails.  When the request
    succeeds it returns the server's [Allowed] with a nil error, also
    when that is a denial, and all it does besides is print: the reason
    and the evaluation error of a denial go to the terminal only. *)
Theorem CheckSAPermissions_cases (E : Env) (params : CheckSAPermissionsParams)
        (kubeconfig : option string) (w : World) :
  (forall err, ClientSet E kubeconfig = inr err ->
     CheckSAPermissions E params kubeconfig w = Returns (false, Some err) w)
  /\ (forall client,
        ClientSet E kubeconfig = inl client ->
        let sar := {| ra_Namespace := csp_Namespace params; ra_Verb := csp_Verb params;
                      ra_Group := ""; ra_Resource := csp_Resource params;
                      ra_Subresource := ""; ra_Name := "" |} in
        (forall err, SelfSubjectAccessReviews_Create client sar = inr err ->
           CheckSAPermissions E params kubeconfig w = Returns (false, Some err) w)
        /\ (forall response, SelfSubjectAccessReviews_Create client sar = inl response ->
              exists printed,
                CheckSAPermissions E params kubeconfig w
                = Returns (Allowed response, None) (did printed w)
                /\ Forall isPrinted printed
                /\ (Allowed response = false -> Reason response <> "" ->
                    In (Printed White_B (Reason response ++ nl)) printed)
                /\ (Allowed response = false -> EvaluationError response <> "" ->
                    In (Printed Red (EvaluationError response ++ nl)) printed))).
Proof.
  split.
  - intros err Hc. rewrite CheckSAPermissions_run. now rewrite Hc.
  - intros client Hc sar. split.
    + intros err Hr. rewrite CheckSAPermissions_run, Hc. fold sar. now rewrite Hr.
    + intros response Hr. exists (diagnostics params response).
      rewrite CheckSAPermissions_run, Hc. fold sar. rewrite Hr.
      split; [reflexivity|]. split; [apply diagnostics_printed|].
      unfold diagnostics. split; intros -> Hne.
      * apply String.eqb_neq in Hne. rewrite Hne.
        apply in_or_app. right. apply in_or_app. left. now left.
      * apply String.eqb_neq in Hne. rewrite Hne.
        apply in_or_app. right. apply in_or_app. right. now left.
Qed.

Lemma CheckSAPermissions_cases_witness :
  CheckSAPermissions (Demo.env true false Demo.kubectl) (createNamespace "staging") None
                     (Demo.world ["staging"])
  = Returns (false, Some (errorString "context deadline exceeded")) (Demo.world ["staging"])
  /\ exists printed,
      CheckSAPermissions (Demo.env true false Demo.kubectl) (createNamespace "chaos") None
                         (Demo.world ["chaos"])
      = Returns (false, None) (did printed (Demo.world ["chaos"]))
      /\ Forall isPrinted printed
      /\ In (Printed White_B ("RBAC: not bound" ++ nl)) printed
      /\ In (Printed Red ("no rule resolved" ++ nl)) printed.
Proof.
  split.
  - refine (proj1 (proj2 (CheckSAPermissions_cases (Demo.env true false Demo.kubectl)
                            (createNamespace "staging") None (Demo.world ["staging"]))
                         (Demo.cluster true false) eq_refl) _ eq_refl).
  - destruct (proj2 (proj2 (CheckSAPermissions_cases (Demo.env true false Demo.kubectl)
                              (createNamespace "chaos") None (Demo.world ["chaos"]))
                           (Demo.cluster true false) eq_refl) _ eq_refl)
      as (printed & Hrun & Hpr & Hreason & Heval).
    exists printed. split; [exact Hrun|]. split; [exact Hpr|]. split.
    + apply Hreason; [reflexivity | discriminate].
    + apply Heval; [reflexivity | discriminate].
Defined.

(** The decision of the probe does not depend on the world it runs in,
    and it leaves the input alone. *)
Lemma CheckSAPermissions_any_world (E : Env) params kubeconfig (w0 w0' w : World) r :
  CheckSAPermissions E params kubeconfig w0 = Returns r w0' ->
  exists printed, CheckSAPermissions E params kubeconfig w = Returns r (did printed w).
Proof.
  rewrite !CheckSAPermissions_run.
  destruct (ClientSet E kubeconfig) as [client|err].
  - destruct (SelfSubjectAccessReviews_Create client _) as [response|err].
    + intros [= <- _]. now eexists.
    + intros [= <- _]. exists []. now rewrite did_nil.
  - intros [= <- _]. exists []. now rewrite did_nil.
Qed.

Lemma CheckSAPermissions_total (E : Env) params kubeconfig (w : World) :
  exists r printed, CheckSAPermissions E params kubeconfig w = Returns r (did printed w).
Proof.
  rewrite CheckSAPermissions_run.
  destruct (ClientSet E kubeconfig) as [client|err].
  - destruct (SelfSubjectAccessReviews_Create client _) as [response|err].
    + now do 2 eexists.
    + exists (false, Some err), []. now rewrite did_nil.
  - exists (false, Some err), []. now rewrite did_nil.
Qed.

(** ** The pod check *)

Lemma podExists_run (E : Env) params kubeconfig (w : World) :
  podExists E params kubeconfig w =
  match ClientSet E kubeconfig with
  | inr err => Exits 1 (did [Logged (Error err)] w)
  | inl clientset =>
      match Pods_List clientset (pep_Namespace params) (pep_Label params) with
      | inr err => Exits 1 (did [Logged (Error err)] w)
      | inl pods => Returns (1 <=? List.length (Items pods))%nat w
      end
  end.
Proof.
  unfold podExists.
  destruct (ClientSet E kubeconfig) as [clientset|err]; [|reflexivity].
  destruct (Pods_List clientset _ _) as [pods|err]; [|reflexivity].
  now destruct (1 <=? List.length (Items pods))%nat.
Qed.

(** C9: once the list request has answered, [podExists] is [true] exactly
    when the list has at least one item; no field of a pod is read, so
    two lists of the same length give the same answer whatever the
    phases, and a longer list never turns [true] into [false]. *)
Theorem podExists_counts (E : Env) (params : podExistsParams) (kubeconfig : option string)
        (w : World) (clientset : Clientset) (pods : PodList) :
  ClientSet E kubeconfig = inl clientset ->
  Pods_List clientset (pep_Namespace params) (pep_Label params) = inl pods ->
  exists b,
    podExists E params kubeconfig w = Returns b w
    /\ (b = true <-> (1 <= List.length (Items pods))%nat)
    /\ (forall E' params' kubeconfig' w' clientset' pods',
          ClientSet E' kubeconfig' = inl clientset' ->
          Pods_List clientset' (pep_Namespace params') (pep_Label params') = inl pods' ->
          (List.length (Items pods) <= List.length (Items pods'))%nat ->
          b = true ->
          podExists E' params' kubeconfig' w' = Returns true w').
Proof.
  intros Hc Hl. exists (1 <=? List.length (Items pods))%nat.
  rewrite podExists_run, Hc, Hl. split; [reflexivity|]. split.
  - apply Nat.leb_le.
  - intros E' params' kubeconfig' w' clientset' pods' Hc' Hl' Hle Hb.
    rewrite podExists_run, Hc', Hl'. f_equal.
    apply Nat.leb_le. apply Nat.leb_le in Hb. lia.
Qed.

Lemma podExists_counts_witness :
  exists b,
    podExists (Demo.env true true Demo.kubectl)
              {| pep_Namespace := "litmus"; pep_Label := "app=chaos-delegate" |} None
              (Demo.world []) = Returns b (Demo.world [])
    /\ (b = true <-> (1 <= 1)%nat).
Proof.
  destruct (podExists_counts (Demo.env true true Demo.kubectl)
              {| pep_Namespace := "litmus"; pep_Label := "app=chaos-delegate" |} None
              (Demo.world []) (Demo.cluster true true) {| Items := [Demo.delegate "Failed"] |}
              eq_refl eq_refl) as (b & Hrun & Hiff & _).
  exists b. split; [exact Hrun | exact Hiff].
Defined.

Lemma podExists_any_world (E : Env) params kubeconfig (w0 w0' w : World) b :
  podExists E params kubeconfig w0 = Returns b w0' ->
  podExists E params kubeconfig w = Returns b w.
Proof.
  rewrite !podExists_run.
  destruct (ClientSet E kubeconfig) as [clientset|err]; [|discriminate].
  destruct (Pods_List clientset _ _) as [pods|err]; [|discriminate].
  now intros [= <- _].
Qed.

(** ** The namespace resolver *)

(** One pass with a mode that prompts: print the prompt, read the answer,
    and decide on the name [entered]. *)
Lemma ValidNs_pass_run (E : Env) (mode label : string) (kubeconfig : option string) (w : World) :
  mode = "namespace" \/ mode = "cluster" ->
  ValidNs_pass E mode label kubeconfig w =
  (let namespace := entered E w in
   let '(ok, err) := NsExists E namespace kubeconfig in
   match err with
   | Some err =>
       Printf Red (nl ++ " 🚫 Namespace existence check failed: {" ++ Error err ++ "}" ++ nl) ;;
       os_Exit 1
   | None =>
       if ok then
         exists_ <- podExists E {| pep_Namespace := namespace; pep_Label := label |} kubeconfig ;;
         if exists_ then act occupied ;; ret GotoStart
         else
           Println White_B ["👍 Continuing with"; namespace; "namespace"] ;;
           ret (Return namespace true)
       else
         r <- CheckSAPermissions E (createNamespace namespace) kubeconfig ;;
         if negb (fst r) then act denied ;; ret GotoStart
         else ret (Return namespace false)
   end) (prompted E mode w).
Proof.
  intros Hmode. unfold ValidNs_pass, entered, prompted, promptText.
  destruct Hmode as [-> | ->]; simpl String.eqb; cbv iota;
    unfold bind at 1; unfold bind at 1; unfold Print, act, Scanln; simpl;
    destruct (stdin w) as [|s rest]; reflexivity.
Qed.

(** A mode that is neither of the two ends the process before any prompt. *)
Lemma ValidNs_pass_no_mode (E : Env) (mode label : string) (kubeconfig : option string)
      (w : World) :
  mode <> "namespace" -> mode <> "cluster" ->
  exists w', ValidNs_pass E mode label kubeconfig w = Exits 1 w'.
Proof.
  intros H1 H2. apply String.eqb_neq in H1, H2.
  unfold ValidNs_pass. rewrite H1, H2. now eexists.
Qed.

Lemma mode_dec (mode : string) :
  (mode = "namespace" \/ mode = "cluster") \/ (mode <> "namespace" /\ mode <> "cluster").
Proof.
  destruct (String.eqb_spec mode "namespace"); [now left; left|].
  destruct (String.eqb_spec mode "cluster"); [now left; right|]. now right.
Qed.

(** What a pass that returns has checked about the name it returns. *)
Lemma ValidNs_pass_Return (E : Env) (mode label : string) (kubeconfig : option string)
      (w w' : World) (namespace : string) (nsExists : bool) :
  ValidNs_pass E mode label kubeconfig w = Returns (Return namespace nsExists) w' ->
  namespace = entered E w
  /\ ((NsExists E namespace kubeconfig = (true, None) /\ nsExists = true
       /\ podExists E {| pep_Namespace := namespace; pep_Label := label |} kubeconfig w
          = Returns false w)
      \/ (NsExists E namespace kubeconfig = (false, None) /\ nsExists = false
          /\ exists w1 w2 e,
               CheckSAPermissions E (createNamespace namespace) kubeconfig w1
               = Returns (true, e) w2)).
Proof.
  destruct (mode_dec mode) as [Hmode | [H1 H2]].
  2:{ destruct (ValidNs_pass_no_mode E mode label kubeconfig w H1 H2) as [w1 ->].
      discriminate. }
  rewrite (ValidNs_pass_run E mode label kubeconfig w Hmode). cbv zeta.
  destruct (NsExists E (entered E w) kubeconfig) as [ok err] eqn:Hns.
  destruct err as [err|]; [discriminate|].
  destruct ok.
  - intros H. apply bind_inv in H. destruct H as (b & w1 & Hpod & Hk).
    destruct b.
    + discriminate.
    + unfold bind, Println, act, ret in Hk. simpl in Hk. injection Hk as <- <- _.
      split; [reflexivity|]. left. repeat split; [exact Hns|].
      eapply podExists_any_world; exact Hpod.
  - intros H. apply bind_inv in H. destruct H as ([val e] & w1 & Hprobe & Hk).
    destruct val; simpl in Hk.
    + unfold ret in Hk. injection Hk as <- <- _.
      split; [reflexivity|]. right. repeat split; [exact Hns|]. eauto.
    + discriminate.
Qed.

(** The same for the whole loop, however many prompts it took. *)
Lemma ValidNs_Returns (E : Env) (mode label : string) (kubeconfig : option string)
      (fuel : nat) (w w' : World) (namespace : string) (nsExists : bool) :
  ValidNs E fuel mode label kubeconfig w = Returns (namespace, nsExists) w' ->
  (NsExists E namespace kubeconfig = (true, None) /\ nsExists = true
   /\ podExists E {| pep_Namespace := namespace; pep_Label := label |} kubeconfig w
      = Returns false w)
  \/ (NsExists E namespace kubeconfig = (false, None) /\ nsExists = false
      /\ exists w1 w2 e,
           CheckSAPermissions E (createNamespace namespace) kubeconfig w1
           = Returns (true, e) w2).
Proof.
  revert w. induction fuel as [|fuel IH]; intros w; simpl; [discriminate|].
  intros H. apply bind_inv in H. destruct H as (pass & w1 & Hpass & Hk).
  destruct pass as [|n b].
  - apply IH in Hk. destruct Hk as [(Hns & Hb & Hpod) | Hk]; [left | now right].
    repeat split; try assumption. eapply podExists_any_world; exact Hpod.
  - unfold ret in Hk. injection Hk as -> -> _.
    now apply ValidNs_pass_Return in Hpass.
Qed.

(** C1: a name for which [NsExists] answers [(false, nil)] and the
    create-namespace probe answers not allowed is never what [ValidNs]
    returns, whatever is typed and however long the loop runs; the pass
    in which it is entered prints the refusal and goes back to [start],
    so the call goes on exactly as a fresh call on the rest of the
    input. *)
Theorem ValidNs_rejects_uncreatable (E : Env) (mode label : string) (kubeconfig : option string)
        (N : string) (w0 w0' : World) (e : option error) :
  NsExists E N kubeconfig = (false, None) ->
  CheckSAPermissions E (createNamespace N) kubeconfig w0 = Returns (false, e) w0' ->
  (forall fuel w nsExists w',
     ValidNs E fuel mode label kubeconfig w <> Returns (N, nsExists) w')
  /\ (forall fuel w,
        mode = "namespace" \/ mode = "cluster" ->
        entered E w = N ->
        exists printed,
          let w' := did (printed ++ [denied]) (prompted E mode w) in
          ValidNs_pass E mode label kubeconfig w = Returns GotoStart w'
          /\ ValidNs E (S fuel) mode label kubeconfig w
             = ValidNs E fuel mode label kubeconfig w').
Proof.
  intros Hns Hprobe. split.
  - intros fuel w b w' H. apply ValidNs_Returns in H.
    destruct H as [(Hns' & _) | (_ & _ & w1 & w2 & e' & Hyes)].
    + rewrite Hns in Hns'. discriminate.
    + destruct (CheckSAPermissions_any_world _ _ _ _ _ w1 _ Hprobe) as [pr Hno].
      rewrite Hno in Hyes. discriminate.
  - intros fuel w Hmode Hent.
    destruct (CheckSAPermissions_any_world _ _ _ _ _ (prompted E mode w) _ Hprobe)
      as [printed Hrun].
    exists printed. cbv zeta.
    assert (Hpass : ValidNs_pass E mode label kubeconfig w
                    = Returns GotoStart (did (printed ++ [denied]) (prompted E mode w))).
    { rewrite (ValidNs_pass_run E mode label kubeconfig w Hmode). cbv zeta.
      rewrite Hent, Hns. rewrite (bind_Returns _ _ _ _ _ Hrun). simpl.
      unfold bind. rewrite act_did, did_did. reflexivity. }
    split; [exact Hpass|]. simpl. now rewrite (bind_Returns _ _ _ _ _ Hpass).
Qed.

Lemma ValidNs_rejects_uncreatable_witness :
  ValidNs (Demo.env true false Demo.kubectl) 3 "cluster" "app=chaos-delegate" None
          (Demo.world ["chaos"; "default"])
  <> Returns ("chaos", false) (Demo.world [])
  /\ exists printed,
      ValidNs (Demo.env true false Demo.kubectl) 3 "cluster" "app=chaos-delegate" None
              (Demo.world ["chaos"; "default"])
      = ValidNs (Demo.env true false Demo.kubectl) 2 "cluster" "app=chaos-delegate" None
                (did (printed ++ [denied])
                     (prompted (Demo.env true false Demo.kubectl) "cluster"
                               (Demo.world ["chaos"; "default"]))).
Proof.
  pose proof (ValidNs_rejects_uncreatable (Demo.env true false Demo.kubectl) "cluster"
                "app=chaos-delegate" None "chaos" (Demo.world []) _ None
                eq_refl eq_refl) as [Hnever Hagain].
  split.
  - apply Hnever.
  - destruct (Hagain 2%nat (Demo.world ["chaos"; "default"]) (or_intror eq_refl) eq_refl)
      as [printed [_ Hloop]].
    exists printed. exact Hloop.
Defined.

(** C2: a name whose namespace exists and holds a pod matching the label
    ([podExists] answers [true]) is never what [ValidNs] returns, with no
    assumption on what the identity may do; the pass in which it is
    entered prints the refusal and goes back to [start]. *)
Theorem ValidNs_rejects_occupied (E : Env) (mode label : string) (kubeconfig : option string)
        (N : string) (w0 w0' : World) :
  NsExists E N kubeconfig = (true, None) ->
  podExists E {| pep_Namespace := N; pep_Label := label |} kubeconfig w0 = Returns true w0' ->
  (forall fuel w nsExists w',
     ValidNs E fuel mode label kubeconfig w <> Returns (N, nsExists) w')
  /\ (forall fuel w,
        mode = "namespace" \/ mode = "cluster" ->
        entered E w = N ->
        let w' := did [occupied] (prompted E mode w) in
        ValidNs_pass E mode label kubeconfig w = Returns GotoStart w'
        /\ ValidNs E (S fuel) mode label kubeconfig w
           = ValidNs E fuel mode label kubeconfig w').
Proof.
  intros Hns Hpod. split.
  - intros fuel w b w' H. apply ValidNs_Returns in H.
    destruct H as [(_ & _ & Hfree) | (Hns' & _)].
    + rewrite (podExists_any_world _ _ _ _ _ w _ Hpod) in Hfree. discriminate.
    + rewrite Hns in Hns'. discriminate.
  - intros fuel w Hmode Hent. cbv zeta.
    assert (Hpass : ValidNs_pass E mode label kubeconfig w
                    = Returns GotoStart (did [occupied] (prompted E mode w))).
    { rewrite (ValidNs_pass_run E mode label kubeconfig w Hmode). cbv zeta.
      rewrite Hent, Hns.
      rewrite (bind_Returns _ _ _ _ _
                 (podExists_any_world _ _ _ _ _ (prompted E mode w) _ Hpod)).
      unfold bind. now rewrite act_did. }
    split; [exact Hpass|]. simpl. now rewrite (bind_Returns _ _ _ _ _ Hpass).
Qed.

Lemma ValidNs_rejects_occupied_witness :
  ValidNs (Demo.env true true Demo.kubectl) 2 "namespace" "app=chaos-delegate" None
          (Demo.world ["litmus"])
  <> Returns ("litmus", true) (Demo.world [])
  /\ ValidNs (Demo.env true true Demo.kubectl) 2 "namespace" "app=chaos-delegate" None
             (Demo.world ["litmus"])
     = ValidNs (Demo.env true true Demo.kubectl) 1 "namespace" "app=chaos-delegate" None
               (did [occupied]
                    (prompted (Demo.env true true Demo.kubectl) "namespace" (Demo.world ["litmus"]))).
Proof.
  pose proof (ValidNs_rejects_occupied (Demo.env true true Demo.kubectl) "namespace"
                "app=chaos-delegate" None "litmus" (Demo.world []) _
                eq_refl eq_refl) as [Hnever Hagain].
  split.
  - apply Hnever.
  - apply (Hagain 1%nat (Demo.world ["litmus"]) (or_introl eq_refl) eq_refl).
Defined.

(** C5: when the name entered does not exist ([NsExists] answers
    [(false, nil)]) and the create-namespace probe answers
    [(true, nil)], [ValidNs] returns that name with the flag [false], at
    the first prompt. *)
Theorem ValidNs_accepts_creatable (E : Env) (mode label : string) (kubeconfig : option string)
        (N : string) (w0 w0' w : World) (fuel : nat) :
  mode = "namespace" \/ mode = "cluster" ->
  entered E w = N ->
  NsExists E N kubeconfig = (false, None) ->
  CheckSAPermissions E (createNamespace N) kubeconfig w0 = Returns (true, None) w0' ->
  exists printed,
    ValidNs E (S fuel) mode label kubeconfig w
    = Returns (N, false) (did printed (prompted E mode w)).
Proof.
  intros Hmode Hent Hns Hprobe.
  destruct (CheckSAPermissions_any_world _ _ _ _ _ (prompted E mode w) _ Hprobe)
    as [printed Hrun].
  exists printed. simpl.
  assert (Hpass : ValidNs_pass E mode label kubeconfig w
                  = Returns (Return N false) (did printed (prompted E mode w))).
  { rewrite (ValidNs_pass_run E mode label kubeconfig w Hmode). cbv zeta.
    rewrite Hent, Hns. now rewrite (bind_Returns _ _ _ _ _ Hrun). }
  now rewrite (bind_Returns _ _ _ _ _ Hpass).
Qed.

Lemma ValidNs_accepts_creatable_witness :
  exists printed,
    ValidNs (Demo.env false true Demo.kubectl) 1 "cluster" "app=chaos-delegate" None
            (Demo.world ["litmus"])
    = Returns ("litmus", false)
              (did printed (prompted (Demo.env false true Demo.kubectl) "cluster"
                                     (Demo.world ["litmus"]))).
Proof.
  apply (ValidNs_accepts_creatable (Demo.env false true Demo.kubectl) "cluster"
           "app=chaos-delegate" None "litmus" (Demo.world []) (Demo.world [])
           (Demo.world ["litmus"]) 0%nat (or_intror eq_refl) eq_refl eq_refl eq_refl).
Defined.

(** ** The pod watcher *)

Lemma repeat_snoc {A} (a : A) (n : nat) : (a :: repeat a n = repeat a n ++ [a])%list.
Proof. induction n as [|n IH]; simpl; [reflexivity | now rewrite <- IH]. Qed.

(** While the events are pods that are not yet running, the loop prints
    one notice per event and goes on to the next receive. *)
Lemma WatchPod_range_waiting (watch : Watch) (n : nat) :
  forall (fuel i : nat) (w : World),
    (forall j, (j < n)%nat -> waitingPod (ResultChan watch (i + j))) ->
    WatchPod_range (n + fuel) watch i w
    = WatchPod_range fuel watch (i + n) (did (repeat connecting n) w).
Proof.
  induction n as [|n IH]; intros fuel i w Hwait.
  - simpl. now rewrite Nat.add_0_r, did_nil.
  - destruct (Hwait 0%nat ltac:(lia)) as (ty & p & Hev & Hphase).
    rewrite Nat.add_0_r in Hev. simpl. rewrite Hev. simpl.
    apply String.eqb_neq in Hphase.
    unfold bind at 1. unfold Println. rewrite act_did. rewrite Hphase.
    rewrite IH.
    + rewrite did_did. replace (S i + n)%nat with (i + S n)%nat by lia. reflexivity.
    + intros j Hj. replace (S i + j)%nat with (i + S j)%nat by lia.
      apply Hwait. lia.
Qed.

(** If the loop returns, it saw pods that were not running and then
    either a running pod or the closed channel. *)
Lemma WatchPod_range_Returns (watch : Watch) (fuel : nat) :
  forall (i : nat) (w w' : World),
    WatchPod_range fuel watch i w = Returns tt w' ->
    exists n,
      (forall j, (j < n)%nat -> waitingPod (ResultChan watch (i + j)))
      /\ (runningPod (ResultChan watch (i + n)) \/ ResultChan watch (i + n) = RecvClosed).
Proof.
  induction fuel as [|fuel IH]; intros i w w'; simpl; [discriminate|].
  destruct (ResultChan watch i) as [[ty obj]| |] eqn:Hev; try discriminate.
  - destruct obj as [p| |]; simpl; try discriminate.
    unfold bind at 1. unfold Println. rewrite act_did.
    destruct (String.eqb_spec (Phase p) "Running") as [Hrun|Hrun].
    + intros _. exists 0%nat. split; [intros j Hj; lia|].
      left. rewrite Nat.add_0_r, Hev. now exists ty, p.
    + intros H. apply IH in H. destruct H as (n & Hwait & Hend).
      exists (S n). split.
      * intros [|j] Hj.
        -- rewrite Nat.add_0_r, Hev. now exists ty, p.
        -- replace (i + S j)%nat with (S i + j)%nat by lia. apply Hwait. lia.
      * now replace (i + S n)%nat with (S i + n)%nat by lia.
  - intros _. exists 0%nat. split; [intros j Hj; lia|].
    right. now rewrite Nat.add_0_r.
Qed.

(** C8: [WatchPod] returns in two cases and no other.  After pods that
    are not running, a pod whose phase is "Running" makes it announce
    that, stop the watch and return; the channel being closed makes it
    return with nothing more done or said.  An event that does not carry
    a pod ends the process. *)
Theorem WatchPod_returns (E : Env) (params : WatchPodParams) (kubeconfig : option string) :
  (forall clientset watch,
     ClientSet E kubeconfig = inl clientset ->
     Pods_Watch clientset (wpp_Namespace params) (wpp_Label params) = inl watch ->
     forall n fuel w,
       (forall j, (j < n)%nat -> waitingPod (ResultChan watch j)) ->
       (n < fuel)%nat ->
       (runningPod (ResultChan watch n) ->
          WatchPod E fuel params kubeconfig w
          = Returns tt (did (repeat connecting (S n) ++ [running; WatchStopped]) w))
       /\ (ResultChan watch n = RecvClosed ->
             WatchPod E fuel params kubeconfig w = Returns tt (did (repeat connecting n) w))
       /\ (notAPod (ResultChan watch n) ->
             WatchPod E fuel params kubeconfig w
             = Exits 1 (did (repeat connecting n ++ [Logged "unexpected type"]) w)))
  /\ (forall fuel w w',
        WatchPod E fuel params kubeconfig w = Returns tt w' ->
        exists clientset watch n,
          ClientSet E kubeconfig = inl clientset
          /\ Pods_Watch clientset (wpp_Namespace params) (wpp_Label params) = inl watch
          /\ (forall j, (j < n)%nat -> waitingPod (ResultChan watch j))
          /\ (runningPod (ResultChan watch n) \/ ResultChan watch n = RecvClosed)).
Proof.
  split.
  - intros clientset watch Hc Hw n fuel w Hwait Hfuel.
    unfold WatchPod. rewrite Hc, Hw.
    replace fuel with (n + S (fuel - S n))%nat by lia.
    rewrite (WatchPod_range_waiting watch n _ 0%nat w Hwait). simpl.
    repeat split.
    + intros (ty & p & -> & Hphase). simpl. rewrite Hphase. simpl String.eqb.
      unfold bind, Println. rewrite !act_did, !did_did.
      change (connecting :: (repeat connecting n ++ [running; WatchStopped]))%list
        with ((connecting :: repeat connecting n) ++ [running; WatchStopped])%list.
      rewrite repeat_snoc, <- app_assoc. reflexivity.
    + intros ->. reflexivity.
    + intros (event & -> & Hobj).
      destruct (event_Object event) as [p| |] eqn:Ho.
      * now destruct (Hobj p).
      * unfold log_Fatal, bind. rewrite act_did, did_did. reflexivity.
      * unfold log_Fatal, bind. rewrite act_did, did_did. reflexivity.
  - intros fuel w w'. unfold WatchPod.
    destruct (ClientSet E kubeconfig) as [clientset|err] eqn:Hc; [|discriminate].
    destruct (Pods_Watch clientset _ _) as [watch|err] eqn:Hw; [|discriminate].
    intros H. apply WatchPod_range_Returns in H. destruct H as (n & Hwait & Hend).
    exists clientset, watch, n.
    split; [reflexivity|]. split; [exact Hw|]. split; [exact Hwait | exact Hend].
Qed.

Lemma WatchPod_returns_witness :
  WatchPod (Demo.env true true Demo.kubectl) 5
           {| wpp_Namespace := "default"; wpp_Label := "app=chaos-delegate" |} None
           (Demo.world [])
  = Returns tt (did (repeat connecting 3 ++ [running; WatchStopped]) (Demo.world []))
  /\ WatchPod (Demo.env true true Demo.kubectl) 5
              {| wpp_Namespace := "litmus"; wpp_Label := "app=chaos-delegate" |} None
              (Demo.world [])
     = Returns tt (did (repeat connecting 1) (Demo.world []))
  /\ WatchPod (Demo.env true true Demo.kubectl) 5
              {| wpp_Namespace := "chaos"; wpp_Label := "app=chaos-delegate" |} None
              (Demo.world [])
     = Exits 1 (did (repeat connecting 1 ++ [Logged "unexpected type"]) (Demo.world [])).
Proof.
  split; [| split].
  - refine (proj1 (proj1 (WatchPod_returns (Demo.env true true Demo.kubectl)
                            {| wpp_Namespace := "default"; wpp_Label := "app=chaos-delegate" |}
                            None)
                         (Demo.cluster true true) _ eq_refl eq_refl 2%nat 5%nat
                         (Demo.world []) _ _) _).
    + intros [|[|j]] Hj; [| | lia];
        eexists _, _; (split; [reflexivity | discriminate]).
    + lia.
    + eexists _, _. split; reflexivity.
  - refine (proj1 (proj2 (proj1 (WatchPod_returns (Demo.env true true Demo.kubectl)
                            {| wpp_Namespace := "litmus"; wpp_Label := "app=chaos-delegate" |}
                            None)
                         (Demo.cluster true true) _ eq_refl eq_refl 1%nat 5%nat
                         (Demo.world []) _ _)) _).
    + intros [|j] Hj; [| lia].
      eexists _, _; (split; [reflexivity | discriminate]).
    + lia.
    + reflexivity.
  - refine (proj2 (proj2 (proj1 (WatchPod_returns (Demo.env true true Demo.kubectl)
                            {| wpp_Namespace := "chaos"; wpp_Label := "app=chaos-delegate" |}
                            None)
                         (Demo.cluster true true) _ eq_refl eq_refl 1%nat 5%nat
                         (Demo.world []) _ _)) _).
    + intros [|j] Hj; [| lia].
      eexists _, _; (split; [reflexivity | discriminate]).
    + lia.
    + eexists. split; [reflexivity | discriminate].
Defined.

(** ** The manifest applier *)

(** The apply step: one command is run on the files as they are, and its
    result is classified. *)
Lemma ApplyYaml_apply_run (E : Env) (path kubeconfig : string) (w : World) :
  ApplyYaml_apply E path kubeconfig w =
  let cmd := Run E (applyArgs path kubeconfig) (files w) in
  Returns match RunErr cmd with
          | Some err =>
              if String.eqb (Stderr cmd) "" then ("", Some err)
              else ("", Some (errorString (fmt.Sprintf (Stderr cmd))))
          | None => (Stdout cmd, None)
          end
          (did [Executed (applyArgs path kubeconfig)] w).
Proof.
  unfold ApplyYaml_apply, applyArgs, exec_Run, bind, did. cbv zeta.
  destruct (String.eqb kubeconfig ""); simpl;
    destruct (RunErr _); try reflexivity;
    destruct (String.eqb (Stderr _) ""); reflexivity.
Qed.

Lemma ApplyYaml_local (E : Env) (params : ApplyYamlPrams) (kubeconfig : string) (w : World) :
  ApplyYaml E params kubeconfig true w = ApplyYaml_apply E (YamlPath params) kubeconfig w.
Proof. reflexivity. Qed.

(** *** The formatter

    Each helper of [doVerb] returns a suffix of what it is given. *)
Lemma skipFlags_length (s : string) :
  (String.length (fmt.skipFlags s) <= String.length s)%nat.
Proof.
  induction s as [|c s IH]; simpl; [lia|]. destruct (fmt.isFlag c); simpl; lia.
Qed.

Lemma parsenum_from_length (s : string) :
  forall num isnum,
    (String.length (snd (fmt.parsenum_from s num isnum)) <= String.length s)%nat.
Proof.
  induction s as [|c s IH]; intros num isnum; simpl; [lia|].
  destruct (fmt.isDigit c); simpl; [|lia].
  destruct (fmt.tooLarge num); simpl; [lia|].
  specialize (IH (num * 10 + (fmt.byte c - 48)) true). lia.
Qed.

Lemma cutBracket_length (s inner rest : string) :
  fmt.cutBracket s = Some (inner, rest) -> (String.length rest < String.length s)%nat.
Proof.
  revert inner rest. induction s as [|c s IH]; intros inner rest; simpl; [discriminate|].
  destruct (Ascii.eqb c "]"%char).
  - intros [= _ <-]. lia.
  - destruct (fmt.cutBracket s) as [[i r]|]; [|discriminate].
    intros [= _ <-]. specialize (IH i r eq_refl). lia.
Qed.

Lemma argNumber_length (s : string) (good : bool) :
  (String.length (fst (fst (fmt.argNumber s good))) <= String.length s)%nat.
Proof.
  unfold fmt.argNumber. destruct s as [|c s]; simpl; [lia|].
  destruct (Ascii.eqb c "["%char); simpl; [|lia].
  destruct (String.length s <? 2)%nat eqn:Hlen.
  - simpl. destruct s as [|c1 [|c2 s]]; simpl in *; try lia; discriminate.
  - destruct s as [|c1 [|c2 s]]; try discriminate.
    unfold fmt.parseArgNumber. simpl Nat.ltb. cbv iota.
    destruct (fmt.cutBracket (String c1 (String c2 s))) as [[inner rest]|] eqn:Hcut.
    + apply cutBracket_length in Hcut.
      destruct (fmt.parsenum inner) as [[n isnum] r]. simpl in *. lia.
    + simpl. lia.
Qed.

Lemma tail_length (s : string) : (String.length (fmt.tail s) <= String.length s)%nat.
Proof. destruct s; simpl; lia. Qed.

Lemma parsenum_length (s : string) :
  (String.length (snd (fmt.parsenum s)) <= String.length s)%nat.
Proof. apply parsenum_from_length. Qed.

Lemma decodeVerb_length (c : ascii) (s : string) :
  (String.length (snd (fmt.decodeVerb (String c s))) <= String.length s)%nat.
Proof.
  unfold fmt.decodeVerb.
  repeat match goal with
         | |- context [if ?b then _ else _] => destruct b
         | |- context [match ?x with EmptyString => _ | String _ _ => _ end] => destruct x
         end; simpl; lia.
Qed.

(** A verb leaves no more of the format than it was given. *)
Lemma doVerb_shorter (s out s' : string) :
  fmt.doVerb s = (out, Some s') -> (String.length s' <= String.length s)%nat.
Proof.
  unfold fmt.doVerb.
  pose proof (skipFlags_length s) as H0.
  set (s0 := fmt.skipFlags s) in *.
  pose proof (argNumber_length s0 true) as H1.
  destruct (fmt.argNumber s0 true) as [[s1 a1] g1]. simpl in H1.
  destruct (if fmt.startsWith "*" s1 then _ else _) as [[[o2 s2] a2] g2] eqn:Hwid.
  assert (H2 : (String.length s2 <= String.length s1)%nat).
  { destruct (fmt.startsWith "*" s1).
    - injection Hwid as _ <- _ _. apply tail_length.
    - pose proof (parsenum_length s1) as Hp.
      destruct (fmt.parsenum s1) as [[n wp] r]. simpl in Hp.
      now injection Hwid as _ <- _ _. }
  clear Hwid.
  destruct (if fmt.startsWith "." s2 then _ else _) as [[[o3 s3] a3] g3] eqn:Hprec.
  assert (H3 : (String.length s3 <= String.length s2)%nat).
  { destruct (fmt.startsWith "." s2).
    - cbv zeta in Hprec.
      pose proof (argNumber_length (fmt.tail s2) (if a2 then false else g2)) as Ha.
      pose proof (tail_length s2) as Ht.
      destruct (fmt.argNumber (fmt.tail s2) _) as [[s4 a4] g4]. simpl in Ha.
      destruct (fmt.startsWith "*" s4).
      + injection Hprec as _ <- _ _. pose proof (tail_length s4). lia.
      + pose proof (parsenum_length s4) as Hq.
        destruct (fmt.parsenum s4) as [[n pp] r]. simpl in Hq.
        injection Hprec as _ <- _ _. lia.
    - now injection Hprec as _ <- _ _. }
  clear Hprec.
  destruct (if negb a3 then _ else _) as [[s5 a5] g5] eqn:Hidx.
  assert (H5 : (String.length s5 <= String.length s3)%nat).
  { destruct (negb a3).
    - pose proof (argNumber_length s3 g3) as Ha.
      rewrite Hidx in Ha. exact Ha.
    - now injection Hidx as <- _ _. }
  clear Hidx.
  destruct s5 as [|c s5]; [discriminate|].
  pose proof (decodeVerb_length c s5) as Hd.
  destruct (fmt.decodeVerb (String c s5)) as [verb r]. simpl in Hd, H5.
  destruct (Ascii.eqb c "%"%char); [|destruct (negb g5)];
    intros [= _ <-]; lia.
Qed.

(** The bound on the number of verbs is never reached: any larger bound
    gives the same text. *)
Lemma doPrintf_fuel (fuel1 : nat) :
  forall (fuel2 : nat) (s : string),
    (String.length s < fuel1)%nat -> (String.length s < fuel2)%nat ->
    fmt.doPrintf fuel1 s = fmt.doPrintf fuel2 s.
Proof.
  induction fuel1 as [|fuel1 IH]; intros fuel2 s H1 H2; [lia|].
  destruct fuel2 as [|fuel2]; [lia|].
  induction s as [|c s IHs]; [reflexivity|].
  simpl in H1, H2.
  change (fmt.doPrintf (S fuel1) (String c s))
    with (if Ascii.eqb c "%"%char
          then let '(out, next) := fmt.doVerb s in
               out ++ match next with
                      | Some s' => fmt.doPrintf fuel1 s'
                      | None => ""
                      end
          else String c (fmt.doPrintf (S fuel1) s)).
  change (fmt.doPrintf (S fuel2) (String c s))
    with (if Ascii.eqb c "%"%char
          then let '(out, next) := fmt.doVerb s in
               out ++ match next with
                      | Some s' => fmt.doPrintf fuel2 s'
                      | None => ""
                      end
          else String c (fmt.doPrintf (S fuel2) s)).
  destruct (Ascii.eqb c "%"%char).
  - destruct (fmt.doVerb s) as [out [s'|]] eqn:Hv; [|reflexivity].
    apply doVerb_shorter in Hv. f_equal. apply IH; lia.
  - f_equal. apply IHs; lia.
Qed.

(** [fmt.Sprintf] without operands, on a few formats. *)
Example Sprintf_plain : fmt.Sprintf "permission denied: default/x" = "permission denied: default/x".
Proof. reflexivity. Qed.

Example Sprintf_noverb : fmt.Sprintf "100%" = "100%!(NOVERB)".
Proof. reflexivity. Qed.

Example Sprintf_missing : fmt.Sprintf "50% done" = "50%!d(MISSING)one".
Proof. reflexivity. Qed.

Example Sprintf_percent : fmt.Sprintf "a %% b" = "a % b".
Proof. reflexivity. Qed.

Example Sprintf_badindex : fmt.Sprintf "%[1]d" = "%!d(BADINDEX)".
Proof. reflexivity. Qed.

Example Sprintf_badwidth : fmt.Sprintf "%*d|%.*f" = "%!(BADWIDTH)%!d(MISSING)|%!(BADPREC)%!f(MISSING)".
Proof. reflexivity. Qed.

(** A format without a percent sign is printed as it is. *)
Lemma doPrintf_percentFree (s : string) (fuel : nat) :
  percentFree s = true -> fmt.doPrintf (S fuel) s = s.
Proof.
  induction s as [|c s IH]; simpl; [reflexivity|].
  intros H. apply andb_prop in H. destruct H as [Hc Hs].
  apply negb_true_iff in Hc. rewrite Hc. f_equal. now apply IH.
Qed.

Lemma Sprintf_percentFree (s : string) : percentFree s = true -> fmt.Sprintf s = s.
Proof. apply doPrintf_percentFree. Qed.

(** What holds of the classification: a failed command with a standard
    error free of percent signs gives that text as the error and no
    output; with an empty standard error it gives the error of the run;
    a command that succeeds gives its standard output and no error. *)
Lemma ApplyYaml_apply_cases (E : Env) (path kubeconfig : string) (w : World) :
  let cmd := Run E (applyArgs path kubeconfig) (files w) in
  let w' := did [Executed (applyArgs path kubeconfig)] w in
  (forall err, RunErr cmd = Some err -> Stderr cmd <> "" -> percentFree (Stderr cmd) = true ->
     ApplyYaml_apply E path kubeconfig w = Returns ("", Some (errorString (Stderr cmd))) w')
  /\ (forall err, RunErr cmd = Some err -> Stderr cmd = "" ->
        ApplyYaml_apply E path kubeconfig w = Returns ("", Some err) w')
  /\ (RunErr cmd = None ->
        ApplyYaml_apply E path kubeconfig w = Returns (Stdout cmd, None) w').
Proof.
  cbv zeta. rewrite ApplyYaml_apply_run. cbv zeta. repeat split.
  - intros err -> Hne Hfree. apply String.eqb_neq in Hne. rewrite Hne.
    now rewrite Sprintf_percentFree.
  - intros err -> ->. reflexivity.
  - intros ->. reflexivity.
Qed.

(** C3, where the code departs from it: [kubectl] fails and writes
    "error: quantity 100% is not valid" on its standard error.  The text
    is handed to [fmt.Errorf] as the format, the percent sign is read as
    the start of a verb, and the error returned is not the captured
    text. *)
Theorem ApplyYaml_stderr_as_format :
  let E := Demo.env true true Demo.kubectlPercent in
  let w := Demo.world [] in
  Stderr (Run E (applyArgs "delegate.yaml" "") (files w)) = "error: quantity 100% is not valid"
  /\ ApplyYaml E (localFile "delegate.yaml") "" true w
     = Returns ("", Some (errorString "error: quantity 100%!i(MISSING)s not valid"))
               (did [Executed ["kubectl"; "apply"; "-f"; "delegate.yaml"]] w)
  /\ forall out err w',
       ApplyYaml E (localFile "delegate.yaml") "" true w = Returns (out, Some err) w' ->
       Error err <> "error: quantity 100% is not valid".
Proof.
  cbv zeta. split; [reflexivity|]. split; [reflexivity|].
  intros out err w' H. vm_compute in H. injection H as _ <- _. discriminate.
Qed.

(** The spec's own example has no percent sign and comes back as it is. *)
Example ApplyYaml_permission_denied (E : Env) (path kubeconfig : string) (w : World) err out :
  Run E (applyArgs path kubeconfig) (files w)
  = {| Stdout := out; Stderr := "permission denied: default/x"; RunErr := Some err |} ->
  ApplyYaml E (localFile path) kubeconfig true w
  = Returns ("", Some (errorString "permission denied: default/x"))
            (did [Executed (applyArgs path kubeconfig)] w).
Proof.
  intros Hrun. rewrite ApplyYaml_local. simpl YamlPath.
  rewrite ApplyYaml_apply_run. cbv zeta. now rewrite Hrun.
Qed.

Lemma http_Do_run (E : Env) (req : Request) (w : World) :
  http_Do E req w = Returns (Do E req) (did [Requested req] w).
Proof. reflexivity. Qed.

(** A remote apply once the request is built: send it, read the body,
    write the cache file, apply. *)
Lemma ApplyYaml_remote_run (E : Env) (params : ApplyYamlPrams) (kubeconfig : string)
      (w : World) :
  NewRequest_err E "GET" (manifestURL params) = None ->
  ApplyYaml E params kubeconfig false w =
  match Do E (manifestRequest params) with
  | inr err => Returns ("", Some err)
  | inl resp =>
      match Body resp with
      | inr err => Returns ("", Some err)
      | inl resp_body =>
          bind (ioutil_WriteFile E cacheFile resp_body 420)
               (fun err => match err with
                           | Some err => ret ("", Some err)
                           | None => ApplyYaml_apply E cacheFile kubeconfig
                           end)
      end
  end (did [Requested (manifestRequest params)] w).
Proof.
  intros Hnew. unfold ApplyYaml, http_NewRequest. cbv zeta.
  fold (manifestURL params). rewrite Hnew.
  change (negb false) with true. cbv beta iota.
  fold (manifestRequest params).
  rewrite (bind_Returns _ _ _ _ _ (http_Do_run E (manifestRequest params) w)).
  destruct (Do E (manifestRequest params)) as [resp|err]; [|reflexivity].
  destruct (Body resp); reflexivity.
Qed.

(** A remote apply whose fetch went through is the apply step on the
    cache file, in the world where the cache file holds the body. *)
Lemma ApplyYaml_remote_fetched (E : Env) (params : ApplyYamlPrams) (kubeconfig : string)
      (w : World) (resp : Response) (B : string) :
  NewRequest_err E "GET" (manifestURL params) = None ->
  Do E (manifestRequest params) = inl resp ->
  Body resp = inl B ->
  WriteFile_err E cacheFile B (files w) = None ->
  ApplyYaml E params kubeconfig false w
  = ApplyYaml_apply E cacheFile kubeconfig (fetched params B w).
Proof.
  intros Hnew Hdo Hbody Hwrite.
  rewrite (ApplyYaml_remote_run E params kubeconfig w Hnew), Hdo, Hbody.
  unfold bind, ioutil_WriteFile. simpl files. rewrite Hwrite.
  unfold fetched, did. simpl. now rewrite <- app_assoc.
Qed.

(** A remote apply whose write of the cache file fails returns the error
    of the write, after the request and whatever the write did. *)
Lemma ApplyYaml_remote_unwritten (E : Env) (params : ApplyYamlPrams) (kubeconfig : string)
      (w : World) (resp : Response) (B : string) (failure : WriteFailure) :
  NewRequest_err E "GET" (manifestURL params) = None ->
  Do E (manifestRequest params) = inl resp ->
  Body resp = inl B ->
  WriteFile_err E cacheFile B (files w) = Some failure ->
  ApplyYaml E params kubeconfig false w
  = match failure with
    | OpenFailed err => Returns ("", Some err) (did [Requested (manifestRequest params)] w)
    | WriteFailed err written =>
        Returns ("", Some err) (fetched params (String.substring 0 written B) w)
    end.
Proof.
  intros Hnew Hdo Hbody Hwrite.
  rewrite (ApplyYaml_remote_run E params kubeconfig w Hnew), Hdo, Hbody.
  unfold bind, ioutil_WriteFile. simpl files. rewrite Hwrite.
  destruct failure as [err|err written]; [reflexivity|].
  unfold fetched, did, ret. simpl. now rewrite <- app_assoc.
Qed.

(** C4: a remote [ApplyYaml] asks for [Endpoint/YamlPath/Token.yaml].  If
    the request cannot be built or sent, or the body cannot be read, it
    returns that error and runs no command.  So it does when the cache
    file cannot be written, in either way a write fails: when the file
    cannot be opened nothing has changed, and when the write breaks off
    the cache file is left with the part of the body written until
    then, its old content gone and nothing cleaned up.  Otherwise the
    cache file "chaos-delegate-manifest.yaml" holds exactly the body,
    whatever it held before, and the one command run is
    [kubectl apply -f] on the cache file: the call is a local apply of
    that file. *)
Theorem ApplyYaml_fetches_then_applies (E : Env) (params : ApplyYamlPrams) (kubeconfig : string) (w : World) :
  let url := Endpoint params ++ "/" ++ YamlPath params ++ "/" ++ Token params ++ ".yaml" in
  let req := {| Method := "GET"; URL := url |} in
  (forall err, NewRequest_err E "GET" url = Some err ->
     ApplyYaml E params kubeconfig false w = Returns ("", Some err) w)
  /\ (NewRequest_err E "GET" url = None ->
      (forall err, Do E req = inr err ->
         ApplyYaml E params kubeconfig false w = Returns ("", Some err) (did [Requested req] w))
      /\ (forall resp, Do E req = inl resp ->
            (forall err, Body resp = inr err ->
               ApplyYaml E params kubeconfig false w
               = Returns ("", Some err) (did [Requested req] w))
            /\ (forall B, Body resp = inl B ->
                  (forall err,
                     WriteFile_err E "chaos-delegate-manifest.yaml" B (files w)
                     = Some (OpenFailed err) ->
                     ApplyYaml E params kubeconfig false w
                     = Returns ("", Some err) (did [Requested req] w))
                  /\ (forall err written,
                        WriteFile_err E "chaos-delegate-manifest.yaml" B (files w)
                        = Some (WriteFailed err written) ->
                        let part := String.substring 0 written B in
                        let w1 := fetched params part w in
                        ApplyYaml E params kubeconfig false w = Returns ("", Some err) w1
                        /\ files w1 !! "chaos-delegate-manifest.yaml" = Some part
                        /\ trace w1
                           = (trace w ++ [Requested req;
                                          Wrote "chaos-delegate-manifest.yaml" part 420])%list)
                  /\ (WriteFile_err E "chaos-delegate-manifest.yaml" B (files w) = None ->
                      let w1 := fetched params B w in
                      files w1 !! "chaos-delegate-manifest.yaml" = Some B
                      /\ trace w1
                         = (trace w ++ [Requested req;
                                        Wrote "chaos-delegate-manifest.yaml" B 420])%list
                      /\ ApplyYaml E params kubeconfig false w
                         = ApplyYaml E (localFile "chaos-delegate-manifest.yaml")
                                     kubeconfig true w1
                      /\ exists result,
                           ApplyYaml E params kubeconfig false w
                           = Returns result
                               (did [Executed (applyArgs "chaos-delegate-manifest.yaml"
                                                         kubeconfig)] w1))))).
Proof.
  cbv zeta. fold (manifestURL params). fold (manifestRequest params). fold cacheFile.
  split.
  - intros err Hnew. unfold ApplyYaml, http_NewRequest. cbv zeta.
    fold (manifestURL params). now rewrite Hnew.
  - intros Hnew.
    pose proof (ApplyYaml_remote_run E params kubeconfig w Hnew) as Hrun.
    split.
    + intros err Hdo. rewrite Hrun, Hdo. reflexivity.
    + intros resp Hdo. split.
      * intros err Hbody. rewrite Hrun, Hdo, Hbody. reflexivity.
      * intros B Hbody. split; [|split].
        -- intros err Hwrite.
           exact (ApplyYaml_remote_unwritten E params kubeconfig w resp B _
                    Hnew Hdo Hbody Hwrite).
        -- intros err written Hwrite.
           split; [|split; [apply lookup_insert_eq | reflexivity]].
           exact (ApplyYaml_remote_unwritten E params kubeconfig w resp B _
                    Hnew Hdo Hbody Hwrite).
        -- intros Hwrite.
           pose proof (ApplyYaml_remote_fetched E params kubeconfig w resp B
                         Hnew Hdo Hbody Hwrite) as Heq.
           split; [apply lookup_insert_eq|]. split; [reflexivity|].
           split; [exact Heq|].
           rewrite Heq, ApplyYaml_apply_run. cbv zeta. now eexists.
Qed.

Lemma ApplyYaml_fetches_then_applies_witness :
  let E := Demo.env true true Demo.kubectl in
  let params := {| Token := "tok123"; Endpoint := "https://cc.example"; YamlPath := "manifests" |} in
  let down := {| Token := "tok123"; Endpoint := "https://down.example"; YamlPath := "manifests" |} in
  let req := {| Method := "GET"; URL := "https://cc.example/manifests/tok123.yaml" |} in
  let w := {| stdin := []; files := {[ "chaos-delegate-manifest.yaml" := "kind: Stale" ]};
              trace := [] |} in
  ApplyYaml E down "" false w
  = Returns ("", Some (errorString "dial tcp: connection refused"))
            (did [Requested {| Method := "GET";
                               URL := "https://down.example/manifests/tok123.yaml" |}] w)
  /\ files (fetched params "kind: Deployment" w) !! "chaos-delegate-manifest.yaml"
     = Some "kind: Deployment"
  /\ ApplyYaml E params "" false w
     = ApplyYaml E (localFile "chaos-delegate-manifest.yaml") "" true
                 (fetched params "kind: Deployment" w)
  /\ ApplyYaml (Demo.badDisk None) params "" false w
     = Returns ("", Some (errorString "open chaos-delegate-manifest.yaml: permission denied"))
               (did [Requested req] w)
  /\ ApplyYaml (Demo.badDisk (Some 5%nat)) params "" false w
     = Returns ("", Some (errorString
                            "write chaos-delegate-manifest.yaml: no space left on device"))
               {| stdin := []; files := {[ "chaos-delegate-manifest.yaml" := "kind:" ]};
                  trace := [Requested req; Wrote "chaos-delegate-manifest.yaml" "kind:" 420] |}.
Proof.
  intros E params down req w. split; [|split; [|split; [|split]]].
  - exact (proj1 (proj2 (ApplyYaml_fetches_then_applies E down "" w) eq_refl) _ eq_refl).
  - exact (proj1 (proj2 (proj2 (proj2 (proj2 (proj2 (ApplyYaml_fetches_then_applies
             E params "" w) eq_refl) _ eq_refl) _ eq_refl)) eq_refl)).
  - exact (proj1 (proj2 (proj2 (proj2 (proj2 (proj2 (proj2 (proj2
             (ApplyYaml_fetches_then_applies E params "" w) eq_refl) _ eq_refl)
             _ eq_refl)) eq_refl)))).
  - exact (proj1 (proj2 (proj2 (proj2 (ApplyYaml_fetches_then_applies
             (Demo.badDisk None) params "" w) eq_refl) _ eq_refl) _ eq_refl)
             _ eq_refl).
  - exact (proj1 (proj1 (proj2 (proj2 (proj2 (proj2 (ApplyYaml_fetches_then_applies
             (Demo.badDisk (Some 5%nat)) params "" w) eq_refl) _ eq_refl) _ eq_refl))
             _ _ eq_refl)).
Defined.

(** C10: the status code of the response is never read.  Whatever it is,
    once a response is received and its body read, the body is written
    to the cache file and the apply step runs on it; the result is that
    of the command and of nothing else, and two servers that send the
    same body with different status codes lead to the same outcome. *)
Theorem ApplyYaml_ignores_status (E : Env) (params : ApplyYamlPrams) (kubeconfig : string)
        (w : World) (code : Z) (B : string) :
  NewRequest_err E "GET" (manifestURL params) = None ->
  Do E (manifestRequest params) = inl {| StatusCode := code; Body := inl B |} ->
  WriteFile_err E cacheFile B (files w) = None ->
  let w1 := fetched params B w in
  let cmd := Run E (applyArgs cacheFile kubeconfig) (files w1) in
  files w1 !! cacheFile = Some B
  /\ ApplyYaml E params kubeconfig false w
     = ApplyYaml E (localFile cacheFile) kubeconfig true w1
  /\ (exists result,
        ApplyYaml E params kubeconfig false w
        = Returns result (did [Executed (applyArgs cacheFile kubeconfig)] w1)
        /\ (RunErr cmd = None -> result = (Stdout cmd, None)))
  /\ (forall E' code',
        NewRequest_err E' "GET" (manifestURL params) = None ->
        Do E' (manifestRequest params) = inl {| StatusCode := code'; Body := inl B |} ->
        WriteFile_err E' cacheFile B (files w) = None ->
        Run E' = Run E ->
        ApplyYaml E' params kubeconfig false w = ApplyYaml E params kubeconfig false w).
Proof.
  intros Hnew Hdo Hwrite. cbv zeta.
  pose proof (ApplyYaml_remote_fetched E params kubeconfig w _ B Hnew Hdo eq_refl Hwrite)
    as Heq.
  split; [apply lookup_insert_eq|]. split; [exact Heq|]. split.
  - rewrite Heq, ApplyYaml_apply_run. cbv zeta. eexists. split; [reflexivity|].
    now intros ->.
  - intros E' code' Hnew' Hdo' Hwrite' Hsame.
    rewrite Heq.
    rewrite (ApplyYaml_remote_fetched E' params kubeconfig w _ B Hnew' Hdo' eq_refl Hwrite').
    rewrite !ApplyYaml_apply_run. now rewrite Hsame.
Qed.

Lemma ApplyYaml_ignores_status_witness :
  let E := Demo.env true true Demo.kubectl in
  let params := {| Token := "gone"; Endpoint := "https://cc.example"; YamlPath := "manifests" |} in
  let w := Demo.world [] in
  files (fetched params "404 page not found" w) !! cacheFile = Some "404 page not found"
  /\ exists result,
       ApplyYaml E params "" false w
       = Returns result
                 (did [Executed ["kubectl"; "apply"; "-f"; "chaos-delegate-manifest.yaml"]]
                      (fetched params "404 page not found" w))
       /\ result = ("deployment.apps/subscriber created" ++ nl, None).
Proof.
  intros E params w.
  destruct (ApplyYaml_ignores_status E params "" w 404 "404 page not found"
              eq_refl eq_refl eq_refl) as (Hfile & _ & (result & Hrun & Hres) & _).
  split; [exact Hfile|]. exists result. split; [exact Hrun|]. apply Hres. reflexivity.
Defined.

(** * More of the package *)

(** ** The resolver, pass by pass *)

Lemma CheckSAPermissions_prints (E : Env) params kubeconfig (w : World) :
  exists r printed,
    CheckSAPermissions E params kubeconfig w = Returns r (did printed w)
    /\ Forall isPrinted printed.
Proof.
  rewrite CheckSAPermissions_run.
  destruct (ClientSet E kubeconfig) as [client|err].
  - destruct (SelfSubjectAccessReviews_Create client _) as [response|err].
    + exists (Allowed response, None), (diagnostics params response).
      split; [reflexivity | apply diagnostics_printed].
    + exists (false, Some err), []. rewrite did_nil. now split.
  - exists (false, Some err), []. rewrite did_nil. now split.
Qed.

Lemma isPrinted_Printed (c : Color) (text : string) : isPrinted (Printed c text).
Proof. now exists c, text. Qed.

(** What a pass with a prompting mode comes to, by what the cluster says
    about the name entered. *)
Lemma ValidNs_pass_outcome (E : Env) (mode label : string) (kubeconfig : option string)
      (w : World) :
  mode = "namespace" \/ mode = "cluster" ->
  let N := entered E w in
  let w1 := prompted E mode w in
  let pass := ValidNs_pass E mode label kubeconfig w in
  match NsExists E N kubeconfig with
  | (_, Some err) =>
      pass = Exits 1 (did [Printed Red (nl ++ " 🚫 Namespace existence check failed: {"
                                        ++ Error err ++ "}" ++ nl)] w1)
  | (true, None) =>
      match podExists E {| pep_Namespace := N; pep_Label := label |} kubeconfig w1 with
      | Returns exists_ _ =>
          pass = if exists_ then Returns GotoStart (did [occupied] w1)
                 else Returns (Return N true)
                        (did [Printed White_B
                                (Sprintln ["👍 Continuing with"; N; "namespace"])] w1)
      | _ => exists text, pass = Exits 1 (did [Logged text] w1)
      end
  | (false, None) =>
      exists r printed,
        CheckSAPermissions E (createNamespace N) kubeconfig w1 = Returns r (did printed w1)
        /\ Forall isPrinted printed
        /\ pass = if fst r then Returns (Return N false) (did printed w1)
                  else Returns GotoStart (did (printed ++ [denied]) w1)
  end.
Proof.
  intros Hmode. cbv zeta.
  rewrite (ValidNs_pass_run E mode label kubeconfig w Hmode). cbv zeta.
  destruct (NsExists E (entered E w) kubeconfig) as [ok [err|]].
  - destruct ok; reflexivity.
  - destruct ok.
    + pose proof (podExists_run E {| pep_Namespace := entered E w; pep_Label := label |}
                    kubeconfig (prompted E mode w)) as Hrun.
      destruct (ClientSet E kubeconfig) as [clientset|err].
      * destruct (Pods_List clientset _ _) as [pods|err].
        -- rewrite Hrun, (bind_Returns _ _ _ _ _ Hrun).
           destruct (1 <=? List.length (Items pods))%nat; reflexivity.
        -- rewrite Hrun, (bind_Exits _ _ _ _ _ Hrun). now eexists.
      * rewrite Hrun, (bind_Exits _ _ _ _ _ Hrun). now eexists.
    + destruct (CheckSAPermissions_prints E (createNamespace (entered E w)) kubeconfig
                  (prompted E mode w)) as (r & printed & Hrun & Hpr).
      exists r, printed. split; [exact Hrun|]. split; [exact Hpr|].
      rewrite (bind_Returns _ _ _ _ _ Hrun).
      destruct (fst r); simpl; [reflexivity|].
      unfold bind. now rewrite act_did, did_did.
Qed.

Lemma entered_cons (E : Env) (s : string) (rest : list string) (w : World) :
  stdin w = s :: rest -> entered E w = nameOf E s.
Proof. intros H. unfold entered, nameOf. now rewrite H. Qed.

Lemma entered_nil (E : Env) (w : World) : stdin w = [] -> entered E w = DefaultNs E.
Proof. intros H. unfold entered. now rewrite H. Qed.

Lemma Forall_isPrinted_snoc (l : list Action) (c : Color) (text : string) :
  Forall isPrinted l -> Forall isPrinted (l ++ [Printed c text])%list.
Proof.
  intros H. apply Forall_app. split; [exact H|].
  constructor; [apply isPrinted_Printed | constructor].
Qed.

(** A pass on a name that is turned down goes back to [start]; what it
    adds to the trace are prints. *)
Lemma rejected_pass (E : Env) (mode label : string) (kubeconfig : option string) (w : World) :
  mode = "namespace" \/ mode = "cluster" ->
  rejected E label kubeconfig (entered E w) ->
  exists printed,
    ValidNs_pass E mode label kubeconfig w
    = Returns GotoStart (did printed (prompted E mode w))
    /\ Forall isPrinted printed.
Proof.
  intros Hmode Hrej.
  pose proof (ValidNs_pass_outcome E mode label kubeconfig w Hmode) as H. cbv zeta in H.
  destruct Hrej as [(Hns & w0 & w0' & Hpod) | (Hns & w0 & w0' & e & Hprobe)];
    rewrite Hns in H.
  - rewrite (podExists_any_world _ _ _ _ _ (prompted E mode w) _ Hpod) in H.
    exists [occupied]. split; [exact H|].
    constructor; [apply isPrinted_Printed | constructor].
  - destruct H as (r & printed & Hrun & Hpr & Hpass).
    destruct (CheckSAPermissions_any_world _ _ _ _ _ (prompted E mode w) _ Hprobe)
      as [printed' Hrun'].
    rewrite Hrun' in Hrun. injection Hrun as <- _. simpl in Hpass.
    exists (printed ++ [denied])%list. split; [exact Hpass|].
    now apply Forall_isPrinted_snoc.
Qed.

(** A pass on a name that is taken returns it with its flag; what it
    adds to the trace are prints. *)
Lemma accepted_pass (E : Env) (mode label : string) (kubeconfig : option string) (w : World)
      (nsExists : bool) :
  mode = "namespace" \/ mode = "cluster" ->
  accepted E label kubeconfig (entered E w) nsExists ->
  exists printed,
    ValidNs_pass E mode label kubeconfig w
    = Returns (Return (entered E w) nsExists) (did printed (prompted E mode w))
    /\ Forall isPrinted printed.
Proof.
  intros Hmode Hacc.
  pose proof (ValidNs_pass_outcome E mode label kubeconfig w Hmode) as H. cbv zeta in H.
  destruct Hacc as [(Hns & -> & w0 & w0' & Hpod) | (Hns & -> & w0 & w0' & e & Hprobe)];
    rewrite Hns in H.
  - rewrite (podExists_any_world _ _ _ _ _ (prompted E mode w) _ Hpod) in H.
    eexists. split; [exact H|].
    constructor; [apply isPrinted_Printed | constructor].
  - destruct H as (r & printed & Hrun & Hpr & Hpass).
    destruct (CheckSAPermissions_any_world _ _ _ _ _ (prompted E mode w) _ Hprobe)
      as [printed' Hrun'].
    rewrite Hrun' in Hrun. injection Hrun as <- _. simpl in Hpass.
    exists printed. split; [exact Hpass | exact Hpr].
Qed.

(** A pass that returns has printed the prompt, read one answer and
    printed. *)
Lemma ValidNs_pass_Returns_did (E : Env) (mode label : string) (kubeconfig : option string)
      (w w' : World) (pass : Pass) :
  ValidNs_pass E mode label kubeconfig w = Returns pass w' ->
  (mode = "namespace" \/ mode = "cluster")
  /\ exists printed, w' = did printed (prompted E mode w) /\ Forall isPrinted printed.
Proof.
  destruct (mode_dec mode) as [Hmode | [H1 H2]].
  2:{ destruct (ValidNs_pass_no_mode E mode label kubeconfig w H1 H2) as [w1 ->].
      discriminate. }
  intros Hpass. split; [exact Hmode|].
  pose proof (ValidNs_pass_outcome E mode label kubeconfig w Hmode) as H. cbv zeta in H.
  rewrite Hpass in H.
  destruct (NsExists E (entered E w) kubeconfig) as [[|] [err|]];
    cbv beta iota in H; try discriminate H.
  - destruct (podExists E _ kubeconfig (prompted E mode w)) as [b w1|c w1|w1|];
      [| destruct H as [text H]; discriminate H ..].
    destruct b; injection H as _ ->; eexists;
      (split; [reflexivity | constructor; [apply isPrinted_Printed | constructor]]).
  - destruct H as (r & printed & _ & Hpr & H).
    destruct (fst r); injection H as _ ->; eexists; (split; [reflexivity|]);
      [exact Hpr | now apply Forall_isPrinted_snoc].
Qed.

(** X1: with a prompting mode, a name whose namespace exists and holds no
    pod matching the label is returned at the first prompt with the flag
    [true], after the line that says so. *)
Theorem ValidNs_accepts_existing (E : Env) (mode label : string) (kubeconfig : option string)
        (N : string) (w0 w0' w : World) (fuel : nat) :
  mode = "namespace" \/ mode = "cluster" ->
  entered E w = N ->
  NsExists E N kubeconfig = (true, None) ->
  podExists E {| pep_Namespace := N; pep_Label := label |} kubeconfig w0 = Returns false w0' ->
  ValidNs E (S fuel) mode label kubeconfig w
  = Returns (N, true)
            (did [Printed White_B (Sprintln ["👍 Continuing with"; N; "namespace"])]
                 (prompted E mode w)).
Proof.
  intros Hmode Hent Hns Hpod.
  pose proof (ValidNs_pass_outcome E mode label kubeconfig w Hmode) as H. cbv zeta in H.
  rewrite Hent, Hns in H.
  rewrite (podExists_any_world _ _ _ _ _ (prompted E mode w) _ Hpod) in H.
  simpl. now rewrite (bind_Returns _ _ _ _ _ H).
Qed.

Lemma ValidNs_accepts_existing_witness :
  ValidNs (Demo.env true false Demo.kubectl) 1 "namespace" "app=chaos-delegate" None
          (Demo.world ["default"; "litmus"])
  = Returns ("default", true)
            (did [Printed White_B ("👍 Continuing with default namespace" ++ nl)]
                 (prompted (Demo.env true false Demo.kubectl) "namespace"
                           (Demo.world ["default"; "litmus"]))).
Proof.
  exact (ValidNs_accepts_existing (Demo.env true false Demo.kubectl) "namespace"
           "app=chaos-delegate" None "default" (Demo.world []) (Demo.world [])
           (Demo.world ["default"; "litmus"]) 0%nat
           (or_introl eq_refl) eq_refl eq_refl eq_refl).
Defined.

(** X2: whatever [ValidNs] returns was asked for under one of the two
    prompting modes and passed its checks: the flag is the answer of
    [NsExists] for the name, which came with no error; a name flagged
    [true] holds no matching pod and a name flagged [false] may be
    created. *)
Theorem ValidNs_result_sound (E : Env) (mode label : string) (kubeconfig : option string)
        (fuel : nat) (w w' : World) (namespace : string) (nsExists : bool) :
  ValidNs E fuel mode label kubeconfig w = Returns (namespace, nsExists) w' ->
  (mode = "namespace" \/ mode = "cluster")
  /\ NsExists E namespace kubeconfig = (nsExists, None)
  /\ accepted E label kubeconfig namespace nsExists.
Proof.
  intros H. split; [|split].
  - destruct fuel as [|fuel]; [discriminate|]. simpl in H.
    apply bind_inv in H. destruct H as (pass & w1 & Hpass & _).
    now apply ValidNs_pass_Returns_did in Hpass.
  - apply ValidNs_Returns in H.
    destruct H as [(Hns & -> & _) | (Hns & -> & _)]; exact Hns.
  - apply ValidNs_Returns in H.
    destruct H as [(Hns & -> & Hpod) | (Hns & -> & Hprobe)].
    + left. repeat split; [exact Hns|]. eauto.
    + right. repeat split; [exact Hns|]. exact Hprobe.
Qed.

Lemma ValidNs_result_sound_witness :
  NsExists (Demo.env true false Demo.kubectl) "default" None = (true, None)
  /\ accepted (Demo.env true false Demo.kubectl) "app=chaos-delegate" None "default" true.
Proof.
  exact (proj2 (ValidNs_result_sound (Demo.env true false Demo.kubectl) "cluster"
                  "app=chaos-delegate" None 3%nat
                  (Demo.world ["litmus"; "chaos"; "default"]) _ "default" true eq_refl)).
Defined.

(** X3: [ValidNs] returns the first answer that is not turned down.  When
    the answers waiting are some names that are each turned down, then a
    name that is taken, the call returns that name with its flag, given
    one pass for each, and leaves the answers after it unread. *)
Theorem ValidNs_first_acceptable (E : Env) (mode label : string) (kubeconfig : option string)
        (turned : list string) (s : string) (rest : list string) (nsExists : bool)
        (w : World) (fuel : nat) :
  mode = "namespace" \/ mode = "cluster" ->
  stdin w = (turned ++ s :: rest)%list ->
  Forall (fun t => rejected E label kubeconfig (nameOf E t)) turned ->
  accepted E label kubeconfig (nameOf E s) nsExists ->
  (List.length turned < fuel)%nat ->
  exists w',
    ValidNs E fuel mode label kubeconfig w = Returns (nameOf E s, nsExists) w'
    /\ stdin w' = rest.
Proof.
  intros Hmode. revert w fuel.
  induction turned as [|t turned IH]; intros w fuel Hin Hrej Hacc Hfuel;
    (destruct fuel as [|fuel]; [simpl in Hfuel; lia|]); simpl in Hin.
  - rewrite <- (entered_cons E s rest w Hin) in Hacc |- *.
    destruct (accepted_pass E mode label kubeconfig w nsExists Hmode Hacc)
      as (printed & Hpass & _).
    eexists. simpl. rewrite (bind_Returns _ _ _ _ _ Hpass). split; [reflexivity|].
    simpl. now rewrite Hin.
  - apply Forall_cons in Hrej. destruct Hrej as [Ht Hrej].
    rewrite <- (entered_cons E t _ w Hin) in Ht.
    destruct (rejected_pass E mode label kubeconfig w Hmode Ht) as (printed & Hpass & _).
    simpl. rewrite (bind_Returns _ _ _ _ _ Hpass).
    apply IH; [simpl; now rewrite Hin | exact Hrej | exact Hacc | simpl in Hfuel; lia].
Qed.

Lemma ValidNs_first_acceptable_witness :
  exists w',
    ValidNs (Demo.env true false Demo.kubectl) 3 "cluster" "app=chaos-delegate" None
            (Demo.world ["litmus"; "chaos"; "default"; "later"])
    = Returns ("default", true) w'
    /\ stdin w' = ["later"].
Proof.
  apply (ValidNs_first_acceptable (Demo.env true false Demo.kubectl) "cluster"
           "app=chaos-delegate" None ["litmus"; "chaos"] "default" ["later"] true
           (Demo.world ["litmus"; "chaos"; "default"; "later"]) 3%nat
           (or_intror eq_refl) eq_refl).
  - constructor; [|constructor; [|constructor]].
    + left. split; [reflexivity|]. exists (Demo.world []), (Demo.world []). reflexivity.
    + right. split; [reflexivity|]. exists (Demo.world []). eexists _, _. vm_compute. reflexivity.
  - left. split; [reflexivity|]. split; [reflexivity|].
    exists (Demo.world []), (Demo.world []). reflexivity.
  - simpl. lia.
Defined.

(** X4: [ValidNs] has no way out but a name it takes.  When every answer
    waiting is turned down and so is the default namespace, which stands
    in once the input is at its end, the loop never ends: whatever the
    number of passes allowed, the call has neither returned nor
    exited. *)
Theorem ValidNs_never_ends (E : Env) (mode label : string) (kubeconfig : option string)
        (w : World) (fuel : nat) :
  mode = "namespace" \/ mode = "cluster" ->
  Forall (fun t => rejected E label kubeconfig (nameOf E t)) (stdin w) ->
  rejected E label kubeconfig (DefaultNs E) ->
  ValidNs E fuel mode label kubeconfig w = OutOfFuel.
Proof.
  intros Hmode Hall Hdef. revert w Hall.
  induction fuel as [|fuel IH]; intros w Hall; [reflexivity|].
  assert (Hent : rejected E label kubeconfig (entered E w)).
  { unfold entered. destruct (stdin w) as [|t l]; [exact Hdef|].
    apply Forall_cons in Hall. exact (proj1 Hall). }
  destruct (rejected_pass E mode label kubeconfig w Hmode Hent) as (printed & Hpass & _).
  simpl. rewrite (bind_Returns _ _ _ _ _ Hpass). apply IH.
  simpl. destruct (stdin w) as [|t l]; [constructor|].
  apply Forall_cons in Hall. exact (proj2 Hall).
Qed.

Lemma ValidNs_never_ends_witness :
  ValidNs (Demo.env true false Demo.kubectl) 50 "namespace" "app=chaos-delegate" None
          (Demo.world ["chaos"; ""]) = OutOfFuel.
Proof.
  apply (ValidNs_never_ends (Demo.env true false Demo.kubectl) "namespace"
           "app=chaos-delegate" None (Demo.world ["chaos"; ""]) 50%nat (or_introl eq_refl)).
  - constructor; [|constructor; [|constructor]].
    + right. split; [reflexivity|]. exists (Demo.world []). eexists _, _. vm_compute. reflexivity.
    + left. split; [reflexivity|]. exists (Demo.world []), (Demo.world []). reflexivity.
  - left. split; [reflexivity|]. exists (Demo.world []), (Demo.world []). reflexivity.
Defined.

(** X5: when the existence check for the name entered fails, [ValidNs]
    prints the error and ends the process with code 1 in that very pass:
    no other check is made and no further answer is read. *)
Theorem ValidNs_exits_on_check_error (E : Env) (mode label : string)
        (kubeconfig : option string) (N : string) (b : bool) (err : error)
        (w : World) (fuel : nat) :
  mode = "namespace" \/ mode = "cluster" ->
  entered E w = N ->
  NsExists E N kubeconfig = (b, Some err) ->
  ValidNs E (S fuel) mode label kubeconfig w
  = Exits 1 (did [Printed Red (nl ++ " 🚫 Namespace existence check failed: {"
                               ++ Error err ++ "}" ++ nl)]
                 (prompted E mode w)).
Proof.
  intros Hmode Hent Hns.
  pose proof (ValidNs_pass_outcome E mode label kubeconfig w Hmode) as H. cbv zeta in H.
  rewrite Hent, Hns in H. simpl.
  assert (H' := H). destruct b; now rewrite (bind_Exits _ _ _ _ _ H').
Qed.

Lemma ValidNs_exits_on_check_error_witness :
  ValidNs (Demo.env true true Demo.kubectl) 4 "cluster" "app=chaos-delegate" None
          (Demo.world ["staging"; "default"])
  = Exits 1 (did [Printed Red (nl ++ " 🚫 Namespace existence check failed: {"
                               ++ "request timed out" ++ "}" ++ nl)]
                 (prompted (Demo.env true true Demo.kubectl) "cluster"
                           (Demo.world ["staging"; "default"]))).
Proof.
  exact (ValidNs_exits_on_check_error (Demo.env true true Demo.kubectl) "cluster"
           "app=chaos-delegate" None "staging" false
           (StatusError StatusReasonTimeout 504 "request timed out")
           (Demo.world ["staging"; "default"]) 3%nat (or_intror eq_refl) eq_refl eq_refl).
Defined.

(** X6: an empty answer stands for the default namespace, and so does the
    end of the input: with a prompting mode, [ValidNs] on an empty line,
    on the name [DefaultNs] typed out, and on no input at all come to
    the same outcome, prints included. *)
Theorem ValidNs_empty_is_default (E : Env) (mode label : string) (kubeconfig : option string)
        (rest : list string) (w : World) (fuel : nat) :
  mode = "namespace" \/ mode = "cluster" ->
  ValidNs E fuel mode label kubeconfig (withInput ("" :: rest) w)
  = ValidNs E fuel mode label kubeconfig (withInput (DefaultNs E :: rest) w)
  /\ ValidNs E fuel mode label kubeconfig (withInput [] w)
     = ValidNs E fuel mode label kubeconfig (withInput [DefaultNs E] w).
Proof.
  intros Hmode.
  assert (Hname : nameOf E (DefaultNs E) = DefaultNs E).
  { unfold nameOf. now destruct (String.eqb (DefaultNs E) ""). }
  destruct fuel as [|fuel]; [now split|]. split.
  - assert (Hpass : ValidNs_pass E mode label kubeconfig (withInput ("" :: rest) w)
                    = ValidNs_pass E mode label kubeconfig
                        (withInput (DefaultNs E :: rest) w)).
    { rewrite !(ValidNs_pass_run E mode label kubeconfig _ Hmode).
      rewrite (entered_cons E "" rest (withInput ("" :: rest) w) eq_refl).
      rewrite (entered_cons E (DefaultNs E) rest (withInput (DefaultNs E :: rest) w) eq_refl).
      rewrite Hname. reflexivity. }
    simpl. unfold bind. now rewrite Hpass.
  - assert (Hpass : ValidNs_pass E mode label kubeconfig (withInput [] w)
                    = ValidNs_pass E mode label kubeconfig (withInput [DefaultNs E] w)).
    { rewrite !(ValidNs_pass_run E mode label kubeconfig _ Hmode).
      rewrite (entered_nil E (withInput [] w) eq_refl).
      rewrite (entered_cons E (DefaultNs E) [] (withInput [DefaultNs E] w) eq_refl).
      rewrite Hname. reflexivity. }
    simpl. unfold bind. now rewrite Hpass.
Qed.

Lemma ValidNs_empty_is_default_witness :
  ValidNs (Demo.env false true Demo.kubectl) 2 "cluster" "app=chaos-delegate" None
          (withInput [""; "default"] (Demo.world []))
  = ValidNs (Demo.env false true Demo.kubectl) 2 "cluster" "app=chaos-delegate" None
            (withInput ["litmus"; "default"] (Demo.world [])).
Proof.
  exact (proj1 (ValidNs_empty_is_default (Demo.env false true Demo.kubectl) "cluster"
                  "app=chaos-delegate" None ["default"] (Demo.world []) 2%nat
                  (or_intror eq_refl))).
Defined.

(** The two prompting modes lead a pass to the same end. *)
Lemma ValidNs_pass_verdict (E : Env) (m1 m2 label : string) (kubeconfig : option string)
      (w1 w2 : World) :
  m1 = "namespace" \/ m1 = "cluster" ->
  m2 = "namespace" \/ m2 = "cluster" ->
  stdin w1 = stdin w2 ->
  verdict (ValidNs_pass E m1 label kubeconfig w1)
  = verdict (ValidNs_pass E m2 label kubeconfig w2).
Proof.
  intros Hm1 Hm2 Hin.
  pose proof (ValidNs_pass_outcome E m1 label kubeconfig w1 Hm1) as H1.
  pose proof (ValidNs_pass_outcome E m2 label kubeconfig w2 Hm2) as H2.
  cbv zeta in H1, H2.
  assert (Hent : entered E w1 = entered E w2) by (unfold entered; now rewrite Hin).
  rewrite Hent in H1.
  destruct (NsExists E (entered E w2) kubeconfig) as [[|] [err|]];
    cbv beta iota in H1, H2.
  - now rewrite H1, H2.
  - rewrite podExists_run in H1, H2.
    destruct (ClientSet E kubeconfig) as [clientset|err].
    + destruct (Pods_List clientset _ _) as [pods|err].
      * rewrite H1, H2.
        destruct (1 <=? List.length (Items pods))%nat; simpl; now rewrite Hin.
      * destruct H1 as [t1 ->], H2 as [t2 ->]. reflexivity.
    + destruct H1 as [t1 ->], H2 as [t2 ->]. reflexivity.
  - now rewrite H1, H2.
  - destruct H1 as (r1 & p1 & Hrun1 & _ & ->), H2 as (r2 & p2 & Hrun2 & _ & ->).
    destruct (CheckSAPermissions_any_world _ _ _ _ _ (prompted E m2 w2) _ Hrun1)
      as [p Hrun].
    rewrite Hrun in Hrun2. injection Hrun2 as <- _.
    destruct (fst r1); simpl; now rewrite Hin.
Qed.

Lemma ValidNs_verdict (E : Env) (m1 m2 label : string) (kubeconfig : option string)
      (fuel : nat) :
  m1 = "namespace" \/ m1 = "cluster" ->
  m2 = "namespace" \/ m2 = "cluster" ->
  forall w1 w2,
    stdin w1 = stdin w2 ->
    verdict (ValidNs E fuel m1 label kubeconfig w1)
    = verdict (ValidNs E fuel m2 label kubeconfig w2).
Proof.
  intros Hm1 Hm2. induction fuel as [|fuel IH]; intros w1 w2 Hin; [reflexivity|].
  pose proof (ValidNs_pass_verdict E m1 m2 label kubeconfig w1 w2 Hm1 Hm2 Hin) as Hv.
  simpl. unfold bind.
  destruct (ValidNs_pass E m1 label kubeconfig w1) as [p1 v1|c1 v1|v1|];
    destruct (ValidNs_pass E m2 label kubeconfig w2) as [p2 v2|c2 v2|v2|];
    simpl in Hv; try discriminate Hv; try reflexivity.
  - injection Hv as <- Hst. destruct p1 as [|n b].
    + now apply IH.
    + simpl. now rewrite Hst.
  - injection Hv as <-. reflexivity.
Qed.

(** X8: the mode only chooses the wording of the prompt.  Under
    "namespace", where the prompt asks for an existing namespace, and
    under "cluster" the same input leads to the same name and flag, the
    same input left, or the same exit code, or to no end under both: in
    particular "namespace" takes a name that does not exist yet. *)
Theorem ValidNs_mode_only_prompt (E : Env) (label : string) (kubeconfig : option string)
        (fuel : nat) (w : World) :
  verdict (ValidNs E fuel "namespace" label kubeconfig w)
  = verdict (ValidNs E fuel "cluster" label kubeconfig w).
Proof.
  apply ValidNs_verdict; [now left | now right | reflexivity].
Qed.

(** ** The applier, as a whole *)

(** All the ways a call of [ApplyYaml] can go. *)
Lemma ApplyYaml_outcomes (E : Env) (params : ApplyYamlPrams) (kubeconfig : string)
      (isLocal : bool) (w : World) :
  (isLocal = true
   /\ ApplyYaml E params kubeconfig isLocal w
      = ApplyYaml_apply E (YamlPath params) kubeconfig w)
  \/ (isLocal = false
      /\ ((exists err, ApplyYaml E params kubeconfig isLocal w = Returns ("", Some err) w)
          \/ (exists err, ApplyYaml E params kubeconfig isLocal w
                          = Returns ("", Some err) (did [Requested (manifestRequest params)] w))
          \/ (exists err part, ApplyYaml E params kubeconfig isLocal w
                               = Returns ("", Some err) (fetched params part w))
          \/ (exists B, ApplyYaml E params kubeconfig isLocal w
                        = ApplyYaml_apply E cacheFile kubeconfig (fetched params B w)))).
Proof.
  destruct isLocal; [left; now split | right; split; [reflexivity|]].
  destruct (NewRequest_err E "GET" (manifestURL params)) as [err|] eqn:Hnew.
  - left. exists err. unfold ApplyYaml, http_NewRequest. cbv zeta.
    fold (manifestURL params). now rewrite Hnew.
  - right. pose proof (ApplyYaml_remote_run E params kubeconfig w Hnew) as Hrun.
    destruct (Do E (manifestRequest params)) as [resp|err] eqn:Hdo;
      [|left; now exists err].
    destruct (Body resp) as [B|err] eqn:Hbody; [|left; now exists err].
    clear Hrun.
    destruct (WriteFile_err E cacheFile B (files w)) as [[err|err written]|] eqn:Hwrite.
    + left. exists err.
      exact (ApplyYaml_remote_unwritten E params kubeconfig w resp B _
               Hnew Hdo Hbody Hwrite).
    + right. left. exists err, (String.substring 0 written B).
      exact (ApplyYaml_remote_unwritten E params kubeconfig w resp B _
               Hnew Hdo Hbody Hwrite).
    + right. right. exists B.
      exact (ApplyYaml_remote_fetched E params kubeconfig w resp B Hnew Hdo Hbody Hwrite).
Qed.

(** X9: [ApplyYaml] always comes back to its caller, and never with both
    an output and an error: whenever the error is not nil the output is
    the empty string, also when the command had written to its standard
    output before it failed. *)
Theorem ApplyYaml_output_or_error (E : Env) (params : ApplyYamlPrams) (kubeconfig : string)
        (isLocal : bool) (w : World) :
  exists output err w',
    ApplyYaml E params kubeconfig isLocal w = Returns (output, err) w'
    /\ (err = None \/ output = "").
Proof.
  assert (Happly : forall path w0, exists output err w',
             ApplyYaml_apply E path kubeconfig w0 = Returns (output, err) w'
             /\ (err = None \/ output = "")).
  { intros path w0. rewrite ApplyYaml_apply_run. cbv zeta.
    destruct (RunErr _) as [e|].
    - destruct (String.eqb (Stderr _) ""); do 3 eexists; (split; [reflexivity | now right]).
    - do 3 eexists. split; [reflexivity | now left]. }
  destruct (ApplyYaml_outcomes E params kubeconfig isLocal w)
    as [[_ ->] | [_ [[err ->] | [[err ->] | [(err & part & ->) | [B ->]]]]]].
  - apply Happly.
  - do 3 eexists. split; [reflexivity | now right].
  - do 3 eexists. split; [reflexivity | now right].
  - do 3 eexists. split; [reflexivity | now right].
  - apply Happly.
Qed.

(** X10: what [ApplyYaml] touches.  It reads no input; the only file it
    may change is the cache file, and a local apply changes none; the
    only command it may run is [kubectl apply -f] on the path given
    (local) or on the cache file (remote), followed by [--kubeconfig]
    and its value exactly when that is not empty. *)
Theorem ApplyYaml_footprint (E : Env) (params : ApplyYamlPrams) (kubeconfig : string)
        (isLocal : bool) (w : World) :
  exists result w' done,
    ApplyYaml E params kubeconfig isLocal w = Returns result w'
    /\ stdin w' = stdin w
    /\ (forall name, name <> "chaos-delegate-manifest.yaml" ->
          files w' !! name = files w !! name)
    /\ (isLocal = true -> files w' = files w)
    /\ trace w' = (trace w ++ done)%list
    /\ forall argv, In (Executed argv) done ->
         argv = ("kubectl" :: "apply" :: "-f"
                  :: (if isLocal then YamlPath params else "chaos-delegate-manifest.yaml")
                  :: (if String.eqb kubeconfig "" then []
                      else ["--kubeconfig"; kubeconfig]))%list.
Proof.
  assert (Hargs : forall path,
             applyArgs path kubeconfig
             = ("kubectl" :: "apply" :: "-f" :: path
                 :: (if String.eqb kubeconfig "" then []
                     else ["--kubeconfig"; kubeconfig]))%list).
  { intros path. unfold applyArgs. now destruct (String.eqb kubeconfig ""). }
  destruct (ApplyYaml_outcomes E params kubeconfig isLocal w)
    as [[-> ->] | [-> [[err ->] | [[err ->] | [(err & part & ->) | [B ->]]]]]].
  - rewrite ApplyYaml_apply_run. cbv zeta.
    eexists _, _, [Executed (applyArgs (YamlPath params) kubeconfig)].
    split; [reflexivity|]. split; [reflexivity|]. split; [reflexivity|].
    split; [reflexivity|]. split; [reflexivity|].
    intros argv [[= <-] | []]. apply Hargs.
  - exists ("", Some err), w, [].
    split; [reflexivity|]. split; [reflexivity|]. split; [reflexivity|].
    split; [discriminate|]. split; [now rewrite app_nil_r|].
    intros argv [].
  - eexists _, _, [Requested (manifestRequest params)].
    split; [reflexivity|]. split; [reflexivity|]. split; [reflexivity|].
    split; [discriminate|]. split; [reflexivity|].
    intros argv [H | []]. discriminate H.
  - eexists _, _, [Requested (manifestRequest params); Wrote cacheFile part 420].
    split; [reflexivity|]. split; [reflexivity|]. split.
    { intros name Hne. simpl. apply lookup_insert_ne.
      intros Heq. apply Hne. symmetry. exact Heq. }
    split; [discriminate|]. split; [reflexivity|].
    intros argv [H | [H | []]]; discriminate H.
  - rewrite ApplyYaml_apply_run. cbv zeta.
    eexists _, _, [Requested (manifestRequest params); Wrote cacheFile B 420;
                   Executed (applyArgs cacheFile kubeconfig)].
    split; [reflexivity|]. split; [reflexivity|]. split.
    { intros name Hne. simpl. apply lookup_insert_ne.
      intros Heq. apply Hne. symmetry. exact Heq. }
    split; [discriminate|]. split.
    { simpl. now rewrite <- app_assoc. }
    intros argv [H | [H | [[= <-] | []]]]; try discriminate H. apply Hargs.
Qed.

(** X11: the part of the error report that works.  When the command of a
    local apply fails and its standard error is not empty and holds no
    percent sign, the error returned carries exactly that text, and the
    output is empty. *)
Theorem ApplyYaml_plain_stderr (E : Env) (params : ApplyYamlPrams) (kubeconfig : string)
        (w : World) (err : error) :
  let cmd := Run E (applyArgs (YamlPath params) kubeconfig) (files w) in
  RunErr cmd = Some err ->
  Stderr cmd <> "" ->
  percentFree (Stderr cmd) = true ->
  exists err' w',
    ApplyYaml E params kubeconfig true w = Returns ("", Some err') w'
    /\ Error err' = Stderr cmd.
Proof.
  cbv zeta. intros Hrun Hne Hfree. rewrite ApplyYaml_local.
  rewrite (proj1 (ApplyYaml_apply_cases E (YamlPath params) kubeconfig w) err Hrun Hne Hfree).
  now eexists _, _.
Qed.

Lemma ApplyYaml_plain_stderr_witness :
  exists err' w',
    ApplyYaml (Demo.env true true Demo.kubectl) (localFile "delegate.yaml") "/root/kc" true
              (Demo.world [])
    = Returns ("", Some err') w'
    /\ Error err' = "error: the path delegate.yaml does not exist" ++ nl.
Proof.
  exact (ApplyYaml_plain_stderr (Demo.env true true Demo.kubectl) (localFile "delegate.yaml")
           "/root/kc" (Demo.world []) (errorString "exit status 1")
           eq_refl ltac:(discriminate) eq_refl).
Defined.

(** ** The watcher that never comes back *)

(** X12: [WatchPod] has no timeout.  As long as every event is a pod that
    is not running it goes on waiting, whatever the number of events, and
    when events stop coming on a channel that stays open it blocks for
    ever: in neither case does it return or end the process. *)
Theorem WatchPod_never_returns (E : Env) (params : WatchPodParams) (kubeconfig : option string)
        (clientset : Clientset) (watch : Watch) :
  ClientSet E kubeconfig = inl clientset ->
  Pods_Watch clientset (wpp_Namespace params) (wpp_Label params) = inl watch ->
  ((forall j, waitingPod (ResultChan watch j)) ->
   forall fuel w, WatchPod E fuel params kubeconfig w = OutOfFuel)
  /\ (forall n fuel w,
        (forall j, (j < n)%nat -> waitingPod (ResultChan watch j)) ->
        ResultChan watch n = RecvNever ->
        (n < fuel)%nat ->
        WatchPod E fuel params kubeconfig w = Blocks (did (repeat connecting n) w)).
Proof.
  intros Hc Hw. split.
  - intros Hall fuel w. unfold WatchPod. rewrite Hc, Hw.
    replace fuel with (fuel + 0)%nat by lia.
    rewrite (WatchPod_range_waiting watch fuel 0 0 w); [reflexivity|].
    intros j _. apply Hall.
  - intros n fuel w Hwait Hnever Hfuel. unfold WatchPod. rewrite Hc, Hw.
    replace fuel with (n + S (fuel - S n))%nat by lia.
    rewrite (WatchPod_range_waiting watch n _ 0%nat w Hwait). simpl.
    now rewrite Hnever.
Qed.

Lemma WatchPod_never_returns_witness :
  WatchPod (DemoAccounts.stalled false) 1000
           {| wpp_Namespace := "litmus"; wpp_Label := "app=chaos-delegate" |} None
           (Demo.world []) = OutOfFuel
  /\ WatchPod (DemoAccounts.stalled true) 1000
              {| wpp_Namespace := "litmus"; wpp_Label := "app=chaos-delegate" |} None
              (Demo.world [])
     = Blocks (did (repeat connecting 1) (Demo.world [])).
Proof.
  split.
  - refine (proj1 (WatchPod_never_returns (DemoAccounts.stalled false)
                     {| wpp_Namespace := "litmus"; wpp_Label := "app=chaos-delegate" |}
                     None _ _ eq_refl eq_refl) _ 1000%nat (Demo.world [])).
    intros [|j]; eexists _, _; (split; [reflexivity | discriminate]).
  - refine (proj2 (WatchPod_never_returns (DemoAccounts.stalled true)
                     {| wpp_Namespace := "litmus"; wpp_Label := "app=chaos-delegate" |}
                     None _ _ eq_refl eq_refl) 1%nat 1000%nat (Demo.world []) _ eq_refl _).
    + intros [|j] Hj; [|lia]. eexists _, _; (split; [reflexivity | discriminate]).
    + lia.
Defined.

(** ** The existence check, the other way round *)

(** X13: [NsExists] answers [true] only when the client was built and the
    get returned a namespace and no error, and then its error is nil; if
    ever the get returns neither a namespace nor an error, the answer is
    [(false, nil)]. *)
Theorem NsExists_true_only_found (E : Env) (namespace : string) (kubeconfig : option string) :
  (forall err, NsExists E namespace kubeconfig = (true, err) ->
     err = None
     /\ exists clientset found,
          ClientSet E kubeconfig = inl clientset
          /\ Namespaces_Get clientset namespace = (Some found, None))
  /\ (forall clientset,
        ClientSet E kubeconfig = inl clientset ->
        Namespaces_Get clientset namespace = (None, None) ->
        NsExists E namespace kubeconfig = (false, None)).
Proof.
  unfold NsExists. split.
  - intros err.
    destruct (ClientSet E kubeconfig) as [clientset|e]; [|discriminate].
    destruct (Namespaces_Get clientset namespace) as [ns er] eqn:Hget.
    destruct (k8serror.IsNotFound er); [discriminate|].
    destruct er as [e|]; [discriminate|]. destruct ns as [found|]; [|discriminate].
    intros [= <-]. split; [reflexivity|]. now exists clientset, found.
  - intros clientset -> ->. reflexivity.
Qed.

Lemma NsExists_true_only_found_witness :
  exists clientset found,
    ClientSet (Demo.env true true Demo.kubectl) None = inl clientset
    /\ Namespaces_Get clientset "litmus" = (Some found, None).
Proof.
  exact (proj2 (proj1 (NsExists_true_only_found (Demo.env true true Demo.kubectl)
                         "litmus" None) None eq_refl)).
Defined.

(** ** Service accounts *)

Lemma SAExists_run (E : Env) (CoreV1 : Clientset -> CoreV1Interface)
      (params : SAExistsParams) (kubeconfig : option string) (w : World) :
  SAExists E CoreV1 params kubeconfig w =
  match ClientSet E kubeconfig with
  | inr err => Exits 1 (did [Logged (Error err)] w)
  | inl clientset =>
      match ServiceAccounts_Get (CoreV1 clientset)
              (sep_Namespace params) (sep_Serviceaccount params) with
      | Some newErr =>
          if String.eqb (Error newErr)
               ("serviceaccounts " ++ quote ++ sep_Serviceaccount params ++ quote
                ++ " not found")
          then Returns false w
          else Exits 1 (did [Logged (Error newErr)] w)
      | None => Returns true w
      end
  end.
Proof.
  unfold SAExists.
  destruct (ClientSet E kubeconfig) as [clientset|err]; [|reflexivity].
  destruct (ServiceAccounts_Get _ _ _) as [newErr|]; [|reflexivity].
  cbv zeta. now destruct (String.eqb _ _).
Qed.

Lemma SAExists_any_world (E : Env) (CoreV1 : Clientset -> CoreV1Interface)
      (params : SAExistsParams) (kubeconfig : option string) (w0 w0' w : World) (b : bool) :
  SAExists E CoreV1 params kubeconfig w0 = Returns b w0' ->
  SAExists E CoreV1 params kubeconfig w = Returns b w.
Proof.
  rewrite !SAExists_run.
  destruct (ClientSet E kubeconfig) as [clientset|err]; [|discriminate].
  destruct (ServiceAccounts_Get _ _ _) as [newErr|].
  - destruct (String.eqb _ _); [|discriminate]. now intros [= <- _].
  - now intros [= <- _].
Qed.

(** X14: [SAExists] tells absence by the text of the error and by nothing
    else.  With the client built, it answers [true] when the get succeeds
    and [false] when the get fails with exactly the message
    [serviceaccounts "NAME" not found]; any other error, a not-found
    status with another wording included, is logged and ends the process
    with code 1. *)
Theorem SAExists_by_message (E : Env) (CoreV1 : Clientset -> CoreV1Interface)
        (params : SAExistsParams) (kubeconfig : option string) (w : World)
        (clientset : Clientset) :
  ClientSet E kubeconfig = inl clientset ->
  let get := ServiceAccounts_Get (CoreV1 clientset)
               (sep_Namespace params) (sep_Serviceaccount params) in
  let msg := "serviceaccounts " ++ quote ++ sep_Serviceaccount params ++ quote
             ++ " not found" in
  (get = None -> SAExists E CoreV1 params kubeconfig w = Returns true w)
  /\ (forall err, get = Some err -> Error err = msg ->
        SAExists E CoreV1 params kubeconfig w = Returns false w)
  /\ (forall err, get = Some err -> Error err <> msg ->
        SAExists E CoreV1 params kubeconfig w = Exits 1 (did [Logged (Error err)] w)).
Proof.
  intros Hc. cbv zeta. rewrite SAExists_run, Hc. repeat split.
  - now intros ->.
  - intros err -> Hmsg. apply String.eqb_eq in Hmsg. now rewrite Hmsg.
  - intros err -> Hmsg. apply String.eqb_neq in Hmsg. now rewrite Hmsg.
Qed.

Lemma SAExists_by_message_witness :
  let E := Demo.env true true Demo.kubectl in
  let w := Demo.world [] in
  let ghost := Demo.notFound "namespaces" (quote ++ "chaos" ++ quote) in
  SAExists E DemoAccounts.coreV1
           {| sep_Namespace := "litmus"; sep_Serviceaccount := "litmus" |} None w
  = Returns true w
  /\ SAExists E DemoAccounts.coreV1
              {| sep_Namespace := "litmus"; sep_Serviceaccount := "nobody" |} None w
     = Returns false w
  /\ k8serror.IsNotFound (Some ghost) = true
  /\ SAExists E DemoAccounts.coreV1
              {| sep_Namespace := "chaos"; sep_Serviceaccount := "ghost" |} None w
     = Exits 1 (did [Logged (Error ghost)] w).
Proof.
  intros E w ghost. split; [|split; [|split]].
  - exact (proj1 (SAExists_by_message E DemoAccounts.coreV1
                    {| sep_Namespace := "litmus"; sep_Serviceaccount := "litmus" |}
                    None w _ eq_refl) eq_refl).
  - exact (proj1 (proj2 (SAExists_by_message E DemoAccounts.coreV1
                           {| sep_Namespace := "litmus"; sep_Serviceaccount := "nobody" |}
                           None w _ eq_refl)) _ eq_refl eq_refl).
  - reflexivity.
  - refine (proj2 (proj2 (SAExists_by_message E DemoAccounts.coreV1
                            {| sep_Namespace := "chaos"; sep_Serviceaccount := "ghost" |}
                            None w _ eq_refl)) ghost eq_refl _).
    discriminate.
Defined.

(** X15: [ValidSA] asks once.  It prints the prompt, reads one answer,
    takes [DefaultSA] for an empty one, and returns that name with the
    answer of [SAExists] for it, after a notice when the account exists;
    when [SAExists] ends the process, so does [ValidSA]. *)
Theorem ValidSA_asks_once (E : Env) (CoreV1 : Clientset -> CoreV1Interface)
        (DefaultSA namespace : string) (kubeconfig : option string) (w w0 w0' : World) :
  let answer := hd "" (stdin w) in
  let sa := if String.eqb answer "" then DefaultSA else answer in
  let asked := did [Printed White_B (nl ++ "Enter service account [Default: "
                                      ++ DefaultSA ++ "]: ")]
                   (withInput (tl (stdin w)) w) in
  let lookup := SAExists E CoreV1 {| sep_Namespace := namespace; sep_Serviceaccount := sa |}
                         kubeconfig in
  (forall b, lookup w0 = Returns b w0' ->
     ValidSA E CoreV1 DefaultSA namespace kubeconfig w
     = Returns (sa, b)
               (if b
                then did [Printed White_B (nl ++ "👍 Using the existing service account")]
                         asked
                else asked))
  /\ (forall code, lookup w0 = Exits code w0' ->
        exists w', ValidSA E CoreV1 DefaultSA namespace kubeconfig w = Exits code w').
Proof.
  cbv zeta.
  assert (Hstart : forall k : string -> M (string * bool),
             bind (Print White_B [nl ++ "Enter service account [Default: "; DefaultSA; "]: "])
                  (fun _ => bind Scanln k) w
             = k (hd "" (stdin w))
                 (did [Printed White_B (nl ++ "Enter service account [Default: "
                                        ++ DefaultSA ++ "]: ")]
                      (withInput (tl (stdin w)) w))).
  { intros k. unfold bind, Print, act, Scanln, did, withInput. simpl.
    destruct (stdin w); reflexivity. }
  unfold ValidSA. rewrite Hstart. split.
  - intros b Hrun.
    rewrite (bind_Returns _ _ _ _ _ (SAExists_any_world _ _ _ _ _ _ _ _ Hrun)).
    destruct b; reflexivity.
  - intros code Hrun. rewrite SAExists_run in Hrun.
    unfold bind at 1. rewrite SAExists_run.
    destruct (ClientSet E kubeconfig) as [clientset|err].
    + destruct (ServiceAccounts_Get _ _ _) as [newErr|]; [|discriminate].
      destruct (String.eqb _ _); [discriminate|].
      injection Hrun as <- _. now eexists.
    + injection Hrun as <- _. now eexists.
Qed.

Lemma ValidSA_asks_once_witness :
  ValidSA (Demo.env true true Demo.kubectl) DemoAccounts.coreV1 "litmus" "default" None
          (Demo.world [""; "next"])
  = Returns ("litmus", true)
            (did [Printed White_B (nl ++ "Enter service account [Default: litmus]: ");
                  Printed White_B (nl ++ "👍 Using the existing service account")]
                 (Demo.world ["next"]))
  /\ exists w',
      ValidSA (Demo.env true true Demo.kubectl) DemoAccounts.coreV1 "litmus" "chaos" None
              (Demo.world ["ghost"])
      = Exits 1 w'.
Proof.
  split.
  - exact (proj1 (ValidSA_asks_once (Demo.env true true Demo.kubectl) DemoAccounts.coreV1
                    "litmus" "default" None (Demo.world [""; "next"])
                    (Demo.world []) (Demo.world [])) true eq_refl).
  - exact (proj2 (ValidSA_asks_once (Demo.env true true Demo.kubectl) DemoAccounts.coreV1
                    "litmus" "chaos" None (Demo.world ["ghost"])
                    (Demo.world []) _) 1 eq_refl).
Defined.

(** ** The config map reader *)

Lemma GetConfigMap_defined (E : Env) (CoreV1 : Clientset -> CoreV1Interface)
      (HomeDir : string) (filepath_Join : list string -> string) (program : string)
      (flag_Parse : gmap string string -> gmap string string + Z)
      (name namespace : string) (formal : gmap string string) :
  is_Some (formal !! "configmap") ->
  GetConfigMap E CoreV1 HomeDir filepath_Join program flag_Parse name namespace formal
  = Panics (if String.eqb program "" then "flag redefined: configmap"
            else program ++ " flag redefined: configmap").
Proof.
  intros [v Hv]. unfold GetConfigMap, flag_String. cbv zeta. now rewrite Hv.
Qed.

(** X16: [GetConfigMap] works once in a process.  It defines the flag
    [configmap] on the command line's flag set each time it is called,
    so a call that finds the flag defined panics before it parses
    anything or asks the cluster; and after any call that finishes,
    with the map or with an error, every further call panics. *)
Theorem GetConfigMap_once (E : Env) (CoreV1 : Clientset -> CoreV1Interface)
        (HomeDir : string) (filepath_Join : list string -> string) (program : string)
        (flag_Parse : gmap string string -> gmap string string + Z)
        (name namespace : string) (formal : gmap string string) :
  let call := GetConfigMap E CoreV1 HomeDir filepath_Join program flag_Parse in
  let redefined := Panics (if String.eqb program "" then "flag redefined: configmap"
                           else program ++ " flag redefined: configmap") in
  (forall value, formal !! "configmap" = Some value ->
     call name namespace formal = redefined)
  /\ (forall result formal',
        call name namespace formal = Finished result formal' ->
        forall name' namespace', call name' namespace' formal' = redefined).
Proof.
  cbv zeta. split.
  - intros value Hv. apply GetConfigMap_defined. now exists value.
  - intros result formal' Hcall name' namespace'. apply GetConfigMap_defined.
    unfold GetConfigMap, flag_String in Hcall. cbv zeta in Hcall.
    destruct (formal !! "configmap") as [v|]; [discriminate|].
    destruct (flag_Parse _) as [actual|code]; [|discriminate].
    assert (Hdef : is_Some ((actual ∪ <["configmap" :=
                     if negb (String.eqb HomeDir "")
                     then filepath_Join [HomeDir; ".kube"; "config"] else ""]> formal)
                            !! "configmap")).
    { apply lookup_union_is_Some. right. rewrite lookup_insert_eq. now eexists. }
    destruct (ClientSet E _) as [clientset|err].
    + destruct (ConfigMaps_Get _ _ _) as [x|err]; injection Hcall as _ <-; exact Hdef.
    + injection Hcall as _ <-. exact Hdef.
Qed.

Lemma GetConfigMap_once_witness :
  let call := GetConfigMap (Demo.env true true Demo.kubectl) DemoAccounts.coreV1
                           "/root" DemoAccounts.join "litmusctl" DemoAccounts.noFlags in
  call "subscriber-config" "litmus" ∅
  = Finished ({[ "VERSION" := "2.13.0" ]}, None) {[ "configmap" := "/root/.kube/config" ]}
  /\ call "subscriber-config" "litmus" {[ "configmap" := "/root/.kube/config" ]}
     = Panics "litmusctl flag redefined: configmap".
Proof.
  intros call. split; [reflexivity|].
  exact (proj2 (GetConfigMap_once (Demo.env true true Demo.kubectl) DemoAccounts.coreV1
                  "/root" DemoAccounts.join "litmusctl" DemoAccounts.noFlags
                  "subscriber-config" "litmus" ∅)
               _ _ eq_refl "subscriber-config" "litmus").
Defined.

(** ** The compatibility matrix *)

Lemma CompatibilityMatrix_entry (cli : string) (centers : list string) :
  CompatibilityMatrix !! cli = Some centers ->
  centers = ["2.2.0"; "2.3.0"]
  \/ centers = ["2.4.0"; "2.5.0"; "2.6.0"; "2.7.0"; "2.8.0"]
  \/ centers = ["2.9.0"; "2.10.0"; "2.11.0"; "2.12.0"; "2.13.0"].
Proof.
  intros H. apply elem_of_list_to_map_2 in H.
  repeat (apply elem_of_cons in H; destruct H as [[= _ ->] | H]; [tauto|]).
  now apply elem_of_nil in H.
Qed.

(** X17: the matrix sorts the ChaosCenter versions into classes.  No
    litmusctl version has an empty list, and the lists of any two
    litmusctl versions are the same list or have no ChaosCenter version
    in common: a ChaosCenter version is compatible with every litmusctl
    version of one class and with no other. *)
Theorem CompatibilityMatrix_classes (cli1 cli2 : string) (centers1 centers2 : list string) :
  CompatibilityMatrix !! cli1 = Some centers1 ->
  CompatibilityMatrix !! cli2 = Some centers2 ->
  centers1 <> []
  /\ (centers1 = centers2 \/ forall center, In center centers1 -> ~ In center centers2).
Proof.
  intros H1 H2.
  apply CompatibilityMatrix_entry in H1, H2.
  destruct H1 as [-> | [-> | ->]]; (split; [discriminate|]);
    destruct H2 as [-> | [-> | ->]];
    try (left; reflexivity); right; intros center Hin Hin'; simpl in Hin, Hin';
    repeat (destruct Hin as [<- | Hin]; [intuition discriminate|]); exact Hin.
Qed.

Lemma CompatibilityMatrix_classes_witness :
  (["2.4.0"; "2.5.0"; "2.6.0"; "2.7.0"; "2.8.0"] = ["2.4.0"; "2.5.0"; "2.6.0"; "2.7.0"; "2.8.0"]
   \/ forall center, In center ["2.4.0"; "2.5.0"; "2.6.0"; "2.7.0"; "2.8.0"] ->
                     ~ In center ["2.4.0"; "2.5.0"; "2.6.0"; "2.7.0"; "2.8.0"])
  /\ (["2.2.0"; "2.3.0"] = ["2.9.0"; "2.10.0"; "2.11.0"; "2.12.0"; "2.13.0"]
      \/ forall center, In center ["2.2.0"; "2.3.0"] ->
                        ~ In center ["2.9.0"; "2.10.0"; "2.11.0"; "2.12.0"; "2.13.0"]).
Proof.
  split.
  - exact (proj2 (CompatibilityMatrix_classes "0.7.0" "0.9.0" _ _ eq_refl eq_refl)).
  - exact (proj2 (CompatibilityMatrix_classes "0.6.0" "0.13.0" _ _ eq_refl eq_refl)).
Defined.
